(** * Content-Factory-AI: the Gemini service layer and its panels

    A shallow embedding of [services/geminiService.ts] (the asynchronous
    functions that drive upload, analysis, polling and cleanup) and of the
    chat and video panels of [App.tsx] that call it.

    The service functions talk to collaborators the repository does not own
    (the [@google/genai] SDK, [fetch], the state observer passed by the
    panel, timers).  Each such interaction is an event of an interaction
    tree; a run is the interpretation of the tree against an environment
    that answers every event from the history of the run so far and records
    the event in a trace.  The [while (!operation.done)] loop of
    [generateVideo] has no bound, so it is an [ITree.iter], not a recursion
    on fuel. *)

From Stdlib Require Import List NArith Bool String Ascii Lia Morphisms.
From ITree Require Import ITree ITreeFacts Events.State Events.StateFacts
  Props.Leaf.
Import ListNotations.
Import ITreeNotations.
Local Open Scope itree_scope.
Local Open Scope N_scope.

(* ===================================================================== *)
(** ** JavaScript strings *)
(* ===================================================================== *)

(** A JavaScript string is a sequence of UTF-16 code units. *)
Definition jsstring := list N.

(** The code units of an ASCII literal of the source. *)
Definition js (s : string) : jsstring :=
  List.map N_of_ascii (list_ascii_of_string s).

Definition jsstring_eqb (a b : jsstring) : bool :=
  if list_eq_dec N.eq_dec a b then true else false.

(** [hay.startsWith(needle)]. *)
Fixpoint starts_with (needle hay : jsstring) : bool :=
  match needle, hay with
  | [], _ => true
  | _ :: _, [] => false
  | c :: needle', d :: hay' => (c =? d) && starts_with needle' hay'
  end.

(** [hay.includes(needle)]: [needle] occurs at some position of [hay]. *)
Fixpoint includes (hay needle : jsstring) : bool :=
  starts_with needle hay ||
  match hay with
  | [] => false
  | _ :: hay' => includes hay' needle
  end.

(** Boolean coercion of a string: only the empty string is falsy. *)
Definition truthy (s : jsstring) : bool :=
  match s with [] => false | _ :: _ => true end.

(** [WhiteSpace] and [LineTerminator] code units, the ones
    [String.prototype.trim] strips. *)
Definition is_js_space (c : N) : bool :=
  (c =? 9) || (c =? 10) || (c =? 11) || (c =? 12) || (c =? 13) || (c =? 32)
  || (c =? 160) || (c =? 5760) || ((8192 <=? c) && (c <=? 8202))
  || (c =? 8232) || (c =? 8233) || (c =? 8239) || (c =? 8287)
  || (c =? 12288) || (c =? 65279).

Fixpoint trim_start (s : jsstring) : jsstring :=
  match s with
  | [] => []
  | c :: s' => if is_js_space c then trim_start s' else s
  end.

Definition trim_end (s : jsstring) : jsstring := rev (trim_start (rev s)).

(** [s.trim()]. *)
Definition trim (s : jsstring) : jsstring := trim_end (trim_start s).

(** How a template literal renders [${x}] when [x] may be [undefined]. *)
Definition render (x : option jsstring) : jsstring :=
  match x with Some s => s | None => js "undefined" end.

(* ===================================================================== *)
(** ** Thrown values and completions *)
(* ===================================================================== *)

(** What a [catch] clause can receive.  [err?.message] is [undefined] for a
    thrown value that has no message (or is itself [null]/[undefined]). *)
Record Thrown := mkThrown {
  thrown_name : jsstring;
  thrown_message : option jsstring
}.

(** [new Error(msg)]. *)
Definition Error (msg : jsstring) : Thrown :=
  mkThrown (js "Error") (Some msg).

(** The [TypeError] the runtime raises on a property read of [undefined]
    or on iterating a non-iterable.  How the message is worded is the
    engine's business. *)
Definition TypeError (msg : jsstring) : Thrown :=
  mkThrown (js "TypeError") (Some msg).

(** How an awaited call (or a plain call) ends. *)
Variant Completion (A : Type) : Type :=
| Normal (a : A)
| Throw (e : Thrown).
Arguments Normal {A} a.
Arguments Throw {A} e.

(* ===================================================================== *)
(** ** Data of the service layer *)
(* ===================================================================== *)

(** A browser [File]: its [name], its [type] and its content. *)
Record File := mkFile {
  file_name : jsstring;
  file_type : jsstring;
  file_content : list N
}.

(** The file resource [uploadFile] returns: [{ name, uri }]. *)
Record FileResource := mkFileResource {
  name : jsstring;
  uri : jsstring
}.

Record BlobObj := mkBlob { blob_bytes : list N }.

(** A [fetch] response: [ok] and what awaiting [text()], [json()] (read as
    the upload result, whose [file] member is taken) and [blob()] gives. *)
Record Response := mkResponse {
  ok : bool;
  text_body : Completion jsstring;
  json_file : Completion FileResource;
  blob_body : Completion BlobObj
}.

(** The body of a request: none, or the multipart form of [uploadFile]
    (the [metadata] part with its [displayName], and the [file] part). *)
Variant Body :=
| NoBody
| FormData (displayName : jsstring) (file : File).

Record Request := mkRequest {
  rq_method : jsstring;
  rq_url : jsstring;
  rq_body : Body
}.

(** Inline bytes: the base64 [data] and its [mimeType]. *)
Record InlineData := mkInline { data : jsstring; mimeType : jsstring }.

(** A reference to an uploaded file. *)
Record FileData := mkFileData { fd_mimeType : jsstring; fileUri : jsstring }.

(** A part of a content.  Every member is optional: [part.inlineData] is
    [undefined] on a part that carries no inline bytes. *)
Record Part := mkPart {
  part_text : option jsstring;
  inlineData : option InlineData;
  fileData : option FileData
}.

(** The object literals [{ text }], [{ inlineData }] and [{ fileData }]. *)
Definition TextPart (text : jsstring) : Part := mkPart (Some text) None None.
Definition InlinePart (d : InlineData) : Part := mkPart None (Some d) None.
Definition FilePart (mime uri : jsstring) : Part :=
  mkPart None None (Some (mkFileData mime uri)).

Record Content := mkContent { parts : option (list Part) }.
Record Candidate := mkCandidate { content : option Content }.

(** The SDK's [GenerateContentResponse]: its [text] accessor and the
    candidates, each level optional as the SDK declares it (the source
    reads them with [?.] in [textToSpeech]). *)
Record GenerateContentResponse := mkGCResponse {
  text : jsstring;
  candidates : option (list Candidate)
}.

(** The SDK's [Modality] enumeration. *)
Variant Modality := MODALITY_UNSPECIFIED | TEXT | IMAGE | AUDIO.

Record GenerateContentParameters := mkGCParams {
  gc_model : jsstring;
  gc_parts : list Part;
  gc_responseModalities : list Modality
}.

Record Video := mkVideo { video_uri : option jsstring }.
Record GeneratedVideo := mkGenVideo { video : option Video }.
Record VideosResponse := mkVideosResponse {
  generatedVideos : option (list GeneratedVideo)
}.

(** The SDK client [getAi] builds, holding the key it was built with. *)
Record GoogleGenAI := mkAi { ai_apiKey : option jsstring }.

(** A long-running video operation: [done?] and [response?]. *)
Record Operation := mkOperation {
  op_name : jsstring;
  done : option bool;
  response : option VideosResponse
}.

(** [operation.done] as a condition: [undefined] is falsy. *)
Definition is_done (op : Operation) : bool :=
  match done op with Some b => b | None => false end.

(** [types.ts]: [VideoAspectRatio = "16:9" | "9:16"]. *)
Variant VideoAspectRatio := Ratio_16_9 | Ratio_9_16.

Record GenerateVideosParameters := mkGVParams {
  gv_model : jsstring;
  gv_prompt : jsstring;
  gv_image : option InlineData;
  gv_numberOfVideos : N;
  gv_resolution : jsstring;
  gv_aspectRatio : VideoAspectRatio
}.

(* ===================================================================== *)
(** ** Events: what the service layer asks of its environment *)
(* ===================================================================== *)

(** One constructor per kind of interaction; the index is the type of the
    answer.  An awaited call answers with a [Completion]; a call whose
    promise is dropped answers with [unit], its outcome never reaching the
    caller. *)
Variant svcE : Type -> Type :=
| OnStateChange (state : jsstring) : svcE (Completion unit)
    (* the [onStateChange] callback handed in by the panel *)
| EnvApiKey : svcE (option jsstring)
    (* a read of [process.env.API_KEY] *)
| NewGoogleGenAI (apiKey : option jsstring) : svcE (Completion GoogleGenAI)
    (* [new GoogleGenAI({ apiKey })] *)
| FileToBase64 (f : File) : svcE (Completion jsstring)
    (* [await fileToBase64(f)] of [utils] *)
| Fetch (rq : Request) : svcE (Completion Response)
    (* [await fetch(url, init)] *)
| FetchDetached (rq : Request) : svcE unit
    (* [fetch(url, init)] as a statement: fire-and-forget *)
| CreateObjectURL (b : BlobObj) : svcE jsstring
| GenerateContent (ai : GoogleGenAI) (p : GenerateContentParameters)
    : svcE (Completion GenerateContentResponse)
    (* [await ai.models.generateContent(p)] *)
| GenerateVideos (ai : GoogleGenAI) (p : GenerateVideosParameters)
    : svcE (Completion Operation)
    (* [await ai.models.generateVideos(p)] *)
| GetVideosOperation (ai : GoogleGenAI) (op : Operation)
    : svcE (Completion Operation)
    (* [await ai.operations.getVideosOperation({ operation })] *)
| SetTimeout (ms : N) : svcE unit
    (* [await new Promise(resolve => setTimeout(resolve, ms))] *)
| ConsoleError (label detail : jsstring) : svcE unit.

(** The service monad: an interaction tree that ends in a completion. *)
Definition svc (A : Type) : Type := itree svcE (Completion A).

Definition throw {A} (e : Thrown) : svc A := Ret (Throw e).

(** Sequencing as JavaScript does it outside any [try]: an abrupt
    completion of the first computation skips the rest. *)
Definition bindC {A B} (t : svc A) (k : A -> svc B) : svc B :=
  ITree.bind t (fun c =>
    match c with
    | Normal a => k a
    | Throw e => Ret (Throw e)
    end).

Notation "x <~ t ;; k" := (bindC t (fun x => k))
  (at level 61, t at next level, right associativity) : itree_scope.
Notation "t ;;~ k" := (bindC t (fun _ => k))
  (at level 61, right associativity) : itree_scope.

(** An awaited (or called) collaborator that may throw. *)
Definition await {A} (e : svcE (Completion A)) : svc A := ITree.trigger e.

(* ===================================================================== *)
(** ** Environments, traces and runs *)
(* ===================================================================== *)

(** An entry of the trace: an event, whatever its answer type. *)
Definition call : Type := {T : Type & svcE T}.
Definition ev {T} (e : svcE T) : call := existT svcE T e.
Definition Trace := list call.

(** A deterministic environment answers an event from the history of the
    run: the same call may be answered differently the second time. *)
Record Env := mkEnv { respond : forall T, svcE T -> Trace -> T }.
Arguments respond _ {T} _ _.

Definition handle (env : Env) : svcE ~> Monads.stateT Trace (itree void1) :=
  fun T e tr => Ret (tr ++ [ev e], respond env e tr).

(** The run of a program from a history [tr]: what remains is a tree
    without events, equal to [Ret (tr', r)] exactly when the program ends
    with trace [tr'] and result [r]. *)
Definition run (env : Env) {R} (p : itree svcE R) (tr : Trace)
  : itree void1 (Trace * R) :=
  interp_state (handle env) p tr.

(* ===================================================================== *)
(** ** [geminiService.ts] *)
(* ===================================================================== *)

(** [getAi()]: a new client for each call, on the key of the moment. *)
Definition getAi : svc GoogleGenAI :=
  apiKey <- ITree.trigger EnvApiKey ;;
  await (NewGoogleGenAI apiKey).

(** *** [uploadFile] *)

Definition upload_endpoint : jsstring :=
  js "https://generativelanguage.googleapis.com/upload/v1beta/files?upload_type=multipart&key=".

Definition files_endpoint : jsstring :=
  js "https://generativelanguage.googleapis.com/v1beta/".

(** [!apiKey]: [undefined] and the empty string are both falsy. *)
Definition key_missing (apiKey : option jsstring) : bool :=
  match apiKey with Some k => negb (truthy k) | None => true end.

(** The multipart POST: the metadata part and the file part. *)
Definition upload_request (file : File) (apiKey : option jsstring) : Request :=
  mkRequest (js "POST") (upload_endpoint ++ render apiKey)
            (FormData (file_name file) file).

Definition uploadFile (file : File) : svc FileResource :=
  apiKey <- ITree.trigger EnvApiKey ;;
  if key_missing apiKey
  then throw (Error (js "API key not found for file upload."))
  else
    uploadResponse <~ await (Fetch (upload_request file apiKey)) ;;
    if negb (ok uploadResponse)
    then
      errorText <~ Ret (text_body uploadResponse) ;;
      ITree.trigger (ConsoleError (js "File upload failed:") errorText) ;;
      throw (Error (js "File upload failed: " ++ errorText))
    else
      uploadResult <~ Ret (json_file uploadResponse) ;;
      Ret (Normal uploadResult).

(** *** [analyzeVideoContent], [analyzeAudioContent] *)

(** The request body of both analysis functions. *)
Definition analysis_request (f : File) (uploadedFile : FileResource)
    (prompt : jsstring) : GenerateContentParameters :=
  mkGCParams (js "gemini-2.5-pro")
    [FilePart (file_type f) (uri uploadedFile); TextPart prompt] [].

(** The cleanup request: DELETE on the uploaded file's resource name. *)
Definition delete_request (uploadedFile : FileResource)
    (apiKey : option jsstring) : Request :=
  mkRequest (js "DELETE")
    (files_endpoint ++ name uploadedFile ++ js "?key=" ++ render apiKey)
    NoBody.

Definition analyzeVideoContent (videoFile : File) (prompt : jsstring)
  : svc jsstring :=
  await (OnStateChange (js "uploading")) ;;~
  uploadedFile <~ uploadFile videoFile ;;
  await (OnStateChange (js "analyzing")) ;;~
  ai <~ getAi ;;
  response <~ await (GenerateContent ai
                       (analysis_request videoFile uploadedFile prompt)) ;;
  (* Clean up the uploaded file (fire-and-forget) *)
  apiKey <- ITree.trigger EnvApiKey ;;
  ITree.trigger (FetchDetached (delete_request uploadedFile apiKey)) ;;
  Ret (Normal (text response)).

Definition analyzeAudioContent (audioFile : File) (prompt : jsstring)
  : svc jsstring :=
  await (OnStateChange (js "uploading")) ;;~
  uploadedFile <~ uploadFile audioFile ;;
  await (OnStateChange (js "analyzing")) ;;~
  ai <~ getAi ;;
  response <~ await (GenerateContent ai
                       (analysis_request audioFile uploadedFile prompt)) ;;
  (* Clean up the uploaded file (fire-and-forget) *)
  apiKey <- ITree.trigger EnvApiKey ;;
  ITree.trigger (FetchDetached (delete_request uploadedFile apiKey)) ;;
  Ret (Normal (text response)).

(** The two analysis task kinds and the function that serves each. *)
Variant AnalysisKind := VideoAnalysis | AudioAnalysis.

Definition analyzeContent (k : AnalysisKind) : File -> jsstring -> svc jsstring :=
  match k with
  | VideoAnalysis => analyzeVideoContent
  | AudioAnalysis => analyzeAudioContent
  end.

(** *** [generateVideo] *)

(** The flat polling interval, in milliseconds. *)
Definition poll_interval : N := 10000.

(** One turn of [while (!operation.done) { wait; operation = poll }]:
    [inl] goes round again with the refreshed operation, [inr] leaves the
    loop (normally with the done operation, abruptly when the poll
    throws). *)
Definition poll_body (ai : GoogleGenAI) (operation : Operation)
  : itree svcE (Operation + Completion Operation) :=
  if negb (is_done operation)
  then
    ITree.trigger (SetTimeout poll_interval) ;;
    c <- await (GetVideosOperation ai operation) ;;
    match c with
    | Normal operation' => Ret (inl operation')
    | Throw e => Ret (inr (Throw e))
    end
  else Ret (inr (Normal operation)).

Definition pollLoop (ai : GoogleGenAI) (operation : Operation)
  : svc Operation :=
  ITree.iter (poll_body ai) operation.

(** [operation.response?.generatedVideos?.[0]?.video?.uri]. *)
Definition downloadLink (operation : Operation) : option jsstring :=
  match response operation with
  | None => None
  | Some r =>
    match generatedVideos r with
    | None => None
    | Some vs =>
      match vs with
      | [] => None
      | v :: _ =>
        match video v with
        | None => None
        | Some vd => video_uri vd
        end
      end
    end
  end.

(** [if (downloadLink)]: a missing link and the empty string are falsy. *)
Definition has_link (l : option jsstring) : bool :=
  match l with Some u => truthy u | None => false end.

Definition video_request (link : option jsstring) (apiKey : option jsstring)
  : Request :=
  mkRequest (js "GET") (render link ++ js "&key=" ++ render apiKey) NoBody.

(** The [if (imageFile) { ... }] block: the optional image payload. *)
Definition image_payload (imageFile : option File)
  : svc (option InlineData) :=
  match imageFile with
  | Some f =>
      base64Image <~ await (FileToBase64 f) ;;
      Ret (Normal (Some (mkInline base64Image (file_type f))))
  | None => Ret (Normal None)
  end.

(** What comes before the first provider call: the client and the
    payload. *)
Definition video_setup (imageFile : option File)
  : svc (GoogleGenAI * option InlineData) :=
  ai <~ getAi ;;
  imagePayload <~ image_payload imageFile ;;
  Ret (Normal (ai, imagePayload)).

Definition video_parameters (prompt : jsstring)
    (imagePayload : option InlineData) (aspectRatio : VideoAspectRatio)
  : GenerateVideosParameters :=
  mkGVParams (js "veo-3.1-fast-generate-preview") prompt imagePayload
             1 (js "720p") aspectRatio.

(** What follows the loop: fetch the bytes behind the link and hand out a
    blob URL, or throw when there is no link. *)
Definition deliver_video (operation : Operation) : svc jsstring :=
  if has_link (downloadLink operation)
  then
    apiKey <- ITree.trigger EnvApiKey ;;
    response <~ await (Fetch (video_request (downloadLink operation) apiKey)) ;;
    videoBlob <~ Ret (blob_body response) ;;
    url <- ITree.trigger (CreateObjectURL videoBlob) ;;
    Ret (Normal url)
  else throw (Error (js "Video generation failed.")).

Definition generateVideo (prompt : jsstring) (imageFile : option File)
    (aspectRatio : VideoAspectRatio) : svc jsstring :=
  setup <~ video_setup imageFile ;;
  let ai := fst setup in
  let imagePayload := snd setup in
  operation <~ await (GenerateVideos ai
                        (video_parameters prompt imagePayload aspectRatio)) ;;
  operation <~ pollLoop ai operation ;;
  deliver_video operation.

(** *** [editImage] *)

(** [response.candidates[0].content.parts] as the [for ... of] receives
    it: every level is read without [?.], so a missing level is a
    [TypeError] of the runtime. *)
Definition first_candidate_parts (r : GenerateContentResponse)
  : Completion (list Part) :=
  match candidates r with
  | None => Throw (TypeError (js "Cannot read properties of undefined (reading '0')"))
  | Some [] => Throw (TypeError (js "Cannot read properties of undefined (reading 'content')"))
  | Some (c :: _) =>
    match content c with
    | None => Throw (TypeError (js "Cannot read properties of undefined (reading 'parts')"))
    | Some ct =>
      match parts ct with
      | None => Throw (TypeError (js "undefined is not iterable"))
      | Some ps => Normal ps
      end
    end
  end.

Definition data_uri (d : InlineData) : jsstring :=
  js "data:" ++ mimeType d ++ js ";base64," ++ data d.

(** The [for (const part of parts)] loop and the [throw] after it. *)
Fixpoint scan_parts (ps : list Part) : Completion jsstring :=
  match ps with
  | [] => Throw (Error (js "Image editing failed."))
  | part :: rest =>
    match inlineData part with
    | Some d => Normal (data_uri d)
    | None => scan_parts rest
    end
  end.

Definition edit_request (imageFile : File) (base64Image prompt : jsstring)
  : GenerateContentParameters :=
  mkGCParams (js "gemini-2.5-flash-image")
    [InlinePart (mkInline base64Image (file_type imageFile)); TextPart prompt]
    [IMAGE].

Definition editImage (imageFile : File) (prompt : jsstring) : svc jsstring :=
  ai <~ getAi ;;
  base64Image <~ await (FileToBase64 imageFile) ;;
  response <~ await (GenerateContent ai
                       (edit_request imageFile base64Image prompt)) ;;
  ps <~ Ret (first_candidate_parts response) ;;
  Ret (scan_parts ps).

(** *** [createChat] *)

(** The SDK's chat session as the service creates it: the client, the
    model and the history it starts from.  What the session does with
    later turns is the SDK's own. *)
Record Chat := mkChat {
  chat_client : GoogleGenAI;
  chat_model : jsstring;
  chat_history : list Content
}.

Definition createChat (history : list Content) : svc Chat :=
  ai <~ getAi ;;
  Ret (Normal (mkChat ai (js "gemini-2.5-flash") history)).

(* ===================================================================== *)
(** ** [App.tsx]: the video generation panel *)
(* ===================================================================== *)

Module VideoGenPanel.
Section Panel.

(** The translation function [t] of [useTranslation]. *)
Variable t : jsstring -> jsstring.

(** The [useState] cells of the component. *)
Record State := mkState {
  prompt : jsstring;
  imageFile : option File;
  aspectRatio : VideoAspectRatio;
  result : jsstring;
  loading : bool;
  error : jsstring;
  apiKeySelected : bool
}.

Definition entity_phrase : jsstring := js "Requested entity was not found.".

(** [err?.message?.includes('Requested entity was not found.')], as a
    condition. *)
Definition entity_not_found (err : Thrown) : bool :=
  match thrown_message err with
  | Some m => includes m entity_phrase
  | None => false
  end.

(** The [catch] clause of [handleSubmit]. *)
Definition on_catch (err : Thrown) (s : State) : State :=
  if entity_not_found err
  then mkState (prompt s) (imageFile s) (aspectRatio s) (result s)
               (loading s) (t (js "apiKeyError")) false
  else mkState (prompt s) (imageFile s) (aspectRatio s) (result s)
               (loading s) (t (js "error")) (apiKeySelected s).

(** [handleSubmit]: reset, call the service, then [try]/[catch]/[finally]. *)
Definition handleSubmit (s : State) : itree svcE State :=
  let s0 := mkState (prompt s) (imageFile s) (aspectRatio s) []
                    true [] (apiKeySelected s) in
  c <- generateVideo (prompt s) (imageFile s) (aspectRatio s) ;;
  let s1 :=
    match c with
    | Normal videoUrl =>
        mkState (prompt s0) (imageFile s0) (aspectRatio s0) videoUrl
                (loading s0) (error s0) (apiKeySelected s0)
    | Throw err => on_catch err s0
    end in
  Ret (mkState (prompt s1) (imageFile s1) (aspectRatio s1) (result s1)
               false (error s1) (apiKeySelected s1)).

End Panel.
End VideoGenPanel.

(* ===================================================================== *)
(** ** [App.tsx]: the chat panel *)
(* ===================================================================== *)

Module ChatPanel.

(** [types.ts]: [ChatMessage]. *)
Variant Role := user | model.

Record ChatMessage := mkMessage {
  role : Role;
  msg_parts : list jsstring   (* the [text] of each part *)
}.

(** What crosses the boundary to the provider, in order: a message handed
    to [chat.sendMessage], and the settlement of the oldest open call. *)
Variant Wire :=
| Sent (message : jsstring)
| Settled.

(** The component between two events: its [useState] cells, [chatRef],
    the [sendMessage] calls still awaited (each an open [handleSend]), and
    the wire log. *)
Record State := mkState {
  messages : list ChatMessage;
  currentInput : jsstring;
  loading : bool;
  error : jsstring;
  chatRef : option Chat;
  awaited : list jsstring;
  wire : list Wire
}.

(** The component before its mount effect has run. *)
Definition initial : State := mkState [] [] false [] None [] [].

Section Panel.

Variable t : jsstring -> jsstring.

(** [handleSend] up to its [await]: the guard, then the four state
    updates and the call. *)
Definition handleSend (s : State) : State :=
  match chatRef s with
  | None => s
  | Some _ =>
    if negb (truthy (trim (currentInput s))) then s
    else
      let userMessage := mkMessage user [currentInput s] in
      let promptToSend := currentInput s in
      mkState (messages s ++ [userMessage]) [] true [] (chatRef s)
              (awaited s ++ [promptToSend]) (wire s ++ [Sent promptToSend])
  end.

(** [handleSend] from the settlement of its [await] on: the rest of the
    [try], the [catch] and the [finally]. *)
Definition handleSend_resume (c : Completion GenerateContentResponse)
    (s : State) : State :=
  match c with
  | Normal response =>
      let modelMessage := mkMessage model [text response] in
      mkState (messages s ++ [modelMessage]) (currentInput s) false
              (error s) (chatRef s) (awaited s) (wire s)
  | Throw _ =>
      mkState (messages s) (currentInput s) false (t (js "error"))
              (chatRef s) (awaited s) (wire s)
  end.

(** What can happen to the mounted component. *)
Variant Event :=
| Mount (c : Completion Chat)             (* the mount effect, with what [createChat([])] gave *)
| Change (value : jsstring)               (* [onChange] of the input *)
| KeyPress (key : jsstring)               (* [onKeyPress] of the input *)
| Click                                   (* [onClick] of the send button *)
| Settle (c : Completion GenerateContentResponse).
                                          (* the oldest awaited call settles *)

(** The send button's [disabled={loading || !currentInput.trim()}]. *)
Definition button_disabled (s : State) : bool :=
  loading s || negb (truthy (trim (currentInput s))).

(** One event on the latest render.  A disabled control delivers no
    event: the input is [disabled={loading}].  A mount effect that throws
    has assigned nothing to [chatRef]. *)
Definition dispatch (s : State) (e : Event) : State :=
  match e with
  | Mount (Normal chat) =>
      mkState (messages s) (currentInput s) (loading s) (error s)
              (Some chat) (awaited s) (wire s)
  | Mount (Throw _) => s
  | Change value =>
      if loading s then s
      else mkState (messages s) value (loading s) (error s) (chatRef s)
                   (awaited s) (wire s)
  | KeyPress key =>
      if loading s then s
      else if jsstring_eqb key (js "Enter") && negb (loading s)
           then handleSend s else s
  | Click =>
      if button_disabled s then s else handleSend s
  | Settle c =>
      match awaited s with
      | [] => s
      | _ :: rest =>
          handleSend_resume c
            (mkState (messages s) (currentInput s) (loading s) (error s)
                     (chatRef s) rest (wire s ++ [Settled]))
      end
  end.

(** A sequence of events from a state. *)
Definition play (s : State) (es : list Event) : State :=
  fold_left dispatch es s.

End Panel.

(** Strict alternation of a history that starts with [expect]. *)
Fixpoint alternates (expect : Role) (ms : list ChatMessage) : bool :=
  match ms with
  | [] => true
  | m :: rest =>
    match expect, role m with
    | user, user => alternates model rest
    | model, model => alternates user rest
    | _, _ => false
    end
  end.

(** The events that submit the input: a click on the send button, or
    Enter in the input. *)
Definition submits (e : Event) : Prop :=
  e = Click \/ e = KeyPress (js "Enter").

(** Whether a call is open after the wire log [w], read from [open]. *)
Definition open_after (open : bool) (w : list Wire) : bool :=
  fold_left (fun _ x => match x with Sent _ => true | Settled => false end)
            w open.

(** A wire log in which no message is sent while a call is open: read
    from a state with [open] calls unsettled, every [Sent] finds none open
    and every [Settled] finds one. *)
Fixpoint one_at_a_time (open : bool) (w : list Wire) : bool :=
  match w with
  | [] => true
  | Sent _ :: rest => negb open && one_at_a_time true rest
  | Settled :: rest => open && one_at_a_time false rest
  end.

(** What every event preserves: the log is one call at a time, a call is
    open exactly while [loading] is set, and then one call is awaited. *)
Definition in_step (s : State) : Prop :=
  one_at_a_time false (wire s) = true /\
  open_after false (wire s) = loading s /\
  List.length (awaited s) = if loading s then 1%nat else 0%nat.

End ChatPanel.

(* ===================================================================== *)
(** ** Reading traces *)
(* ===================================================================== *)

(** A request that deletes a remote resource, awaited or not. *)
Definition is_delete (c : call) : bool :=
  match projT2 c with
  | Fetch rq => jsstring_eqb (rq_method rq) (js "DELETE")
  | FetchDetached rq => jsstring_eqb (rq_method rq) (js "DELETE")
  | _ => false
  end.

Definition delete_requests (tr : Trace) : Trace := filter is_delete tr.

(** The states the observer was invoked with, in order. *)
Definition phase_of (c : call) : list jsstring :=
  match projT2 c with
  | OnStateChange s => [s]
  | _ => []
  end.

Definition phases (tr : Trace) : list jsstring := flat_map phase_of tr.

Definition is_analysis_call (c : call) : bool :=
  match projT2 c with
  | GenerateContent _ _ => true
  | _ => false
  end.

Definition analysis_calls (tr : Trace) : Trace := filter is_analysis_call tr.

(** Fetches of video bytes and blob URLs handed out. *)
Definition is_delivery (c : call) : bool :=
  match projT2 c with
  | Fetch rq => jsstring_eqb (rq_method rq) (js "GET")
  | CreateObjectURL _ => true
  | _ => false
  end.

Definition deliveries (tr : Trace) : Trace := filter is_delivery tr.

Definition is_poll (c : call) : bool :=
  match projT2 c with
  | GetVideosOperation _ _ => true
  | _ => false
  end.

(** How many times the operation has been refreshed so far. *)
Definition count_polls (tr : Trace) : nat := List.length (filter is_poll tr).

(** The trace of polling the operations [ops] in turn: the wait, then
    the refresh. *)
Definition poll_trace (ai : GoogleGenAI) (ops : list Operation) : Trace :=
  flat_map (fun op => [ev (SetTimeout poll_interval);
                       ev (GetVideosOperation ai op)]) ops.

(** A notification of the observer, as a trace entry. *)
Definition notify (s : string) : call := ev (OnStateChange (js s)).

(** How a poll may end the loop: by throwing, or with a done operation. *)
Definition ends_loop (c : Completion Operation) : Prop :=
  match c with
  | Normal op => is_done op = true
  | Throw _ => True
  end.


(* ===================================================================== *)
(** ** Scripted environments *)
(* ===================================================================== *)

(** A stub for every collaborator.  The polls are answered by position:
    [refreshed k] is the answer to the poll that follows [k] earlier
    ones. *)
Record Script := mkScript {
  on_state : jsstring -> Completion unit;
  api_key : option jsstring;
  base64 : File -> Completion jsstring;
  fetched : Request -> Completion Response;
  object_url : BlobObj -> jsstring;
  generated : GenerateContentParameters -> Completion GenerateContentResponse;
  videos : GenerateVideosParameters -> Completion Operation;
  refreshed : nat -> Completion Operation
}.

Definition scripted (s : Script) : Env :=
  mkEnv (fun T (e : svcE T) (tr : Trace) =>
    match e in svcE T return T with
    | OnStateChange state => on_state s state
    | EnvApiKey => api_key s
    | NewGoogleGenAI apiKey => Normal (mkAi apiKey)
    | FileToBase64 f => base64 s f
    | Fetch rq => fetched s rq
    | FetchDetached _ => tt
    | CreateObjectURL b => object_url s b
    | GenerateContent _ p => generated s p
    | GenerateVideos _ p => videos s p
    | GetVideosOperation _ _ => refreshed s (count_polls tr)
    | SetTimeout _ => tt
    | ConsoleError _ _ => tt
    end).

(** Sample data. *)
Definition the_key : option jsstring := Some (js "KEY").
Definition client : GoogleGenAI := mkAi the_key.

Definition clip : File := mkFile (js "clip.mp4") (js "video/mp4") [0; 0; 1].

Definition remote_clip : FileResource :=
  mkFileResource (js "files/abc123")
    (js "https://generativelanguage.googleapis.com/v1beta/files/abc123").

Definition upload_ok : Response :=
  mkResponse true (Normal (js "{}")) (Normal remote_clip)
             (Normal (mkBlob [])).

Definition upload_refused : Response :=
  mkResponse false (Normal (js "quota exceeded"))
             (Throw (Error (js "Unexpected token")))
             (Normal (mkBlob [])).

Definition summary : GenerateContentResponse :=
  mkGCResponse (js "A short clip.") None.

Definition pending_op : Operation := mkOperation (js "operations/1") None None.

Definition failed_op : Operation :=
  mkOperation (js "operations/1") (Some true) None.

Definition finished_op : Operation :=
  mkOperation (js "operations/1") (Some true)
    (Some (mkVideosResponse
             (Some [mkGenVideo
                      (Some (mkVideo (Some (js "https://video.example/1?alt=media"))))]))).

(** Every collaborator succeeds; the video operation is done at once and
    carries no video. *)
Definition all_well : Script :=
  mkScript (fun _ => Normal tt) the_key
           (fun _ => Normal (js "AAAB")) (fun _ => Normal upload_ok)
           (fun _ => js "blob:1") (fun _ => Normal summary)
           (fun _ => Normal failed_op) (fun _ => Normal failed_op).

Definition overloaded : Thrown := Error (js "The model is overloaded.").

(** As [all_well], but the analysis call fails. *)
Definition analysis_fails : Script :=
  mkScript (on_state all_well) (api_key all_well) (base64 all_well)
           (fetched all_well) (object_url all_well)
           (fun _ => Throw overloaded)
           (videos all_well) (refreshed all_well).

(** As [all_well], but the upload is refused. *)
Definition upload_fails : Script :=
  mkScript (on_state all_well) (api_key all_well) (base64 all_well)
           (fun _ => Normal upload_refused) (object_url all_well)
           (generated all_well) (videos all_well) (refreshed all_well).

(** The video operation is pending at first and after the first two
    polls, and finished, with a link, on the third. *)
Definition slow_video : Script :=
  mkScript (on_state all_well) (api_key all_well) (base64 all_well)
           (fetched all_well) (object_url all_well) (generated all_well)
           (fun _ => Normal pending_op)
           (fun k => if Nat.ltb k 2 then Normal pending_op
                     else Normal finished_op).



Definition photo : File := mkFile (js "photo.png") (js "image/png") [137; 80].

Definition edited : InlineData := mkInline (js "iVBORw0KGgo=") (js "image/png").

Definition edit_answer : GenerateContentResponse :=
  mkGCResponse []
    (Some [mkCandidate
             (Some (mkContent
                      (Some [TextPart (js "Here is your image.");
                             InlinePart edited;
                             InlinePart (mkInline (js "AAAA") (js "image/jpeg"))])))]).

(** As [all_well], but the model answers with an edited image. *)
Definition image_edited : Script :=
  mkScript (on_state all_well) (api_key all_well) (base64 all_well)
           (fetched all_well) (object_url all_well)
           (fun _ => Normal edit_answer)
           (videos all_well) (refreshed all_well).

(** An answer without candidates, as a blocked prompt gets. *)
Definition blocked_answer : GenerateContentResponse := mkGCResponse [] (Some []).

Definition prompt_blocked : Script :=
  mkScript (on_state all_well) (api_key all_well) (base64 all_well)
           (fetched all_well) (object_url all_well)
           (fun _ => Normal blocked_answer)
           (videos all_well) (refreshed all_well).

Definition observer_bug : Thrown := Error (js "observer failed").

(** As [all_well], but the observer throws on every notification. *)
Definition observer_throws : Script :=
  mkScript (fun _ => Throw observer_bug) (api_key all_well) (base64 all_well)
           (fetched all_well) (object_url all_well)
           (generated all_well) (videos all_well) (refreshed all_well).

(* ===================================================================== *)
(** ** Calls, logs and runs over any family of events *)
(* ===================================================================== *)

Section Outcomes.

Context {E : Type -> Type}.

(** Calls, logs and environments over any family of events; over [svcE]
    they are [call], [Trace] and the [respond] of an [Env]. *)
Definition Call : Type := {T : Type & E T}.
Definition call_of {T} (e : E T) : Call := existT E T e.
Definition Log : Type := list Call.
Definition Answers : Type := forall T, E T -> Log -> T.

Definition answer (env : Answers) : E ~> Monads.stateT Log (itree void1) :=
  fun T e tr => Ret (tr ++ [call_of e], env T e tr).

Definition exec (env : Answers) {R} (p : itree E R) (tr : Log)
  : itree void1 (Log * R) :=
  interp_state (answer env) p tr.

(** [ends_with P u p]: after the calls [u], the program [p] ends whatever
    its calls are answered, and [P] holds of all the calls made and of the
    result. *)
Inductive ends_with {A} (P : Log -> A -> Prop) : Log -> itree E A -> Prop :=
| ends_ret u a p : p ≈ Ret a -> P u a -> ends_with P u p
| ends_ask u T (e : E T) (k : T -> itree E A) p :
    p ≈ ITree.bind (ITree.trigger e) k ->
    (forall x, ends_with P (u ++ [call_of e]) (k x)) ->
    ends_with P u p.

End Outcomes.

Arguments Call : clear implicits.
Arguments Log : clear implicits.
Arguments Answers : clear implicits.

(* ===================================================================== *)
(** ** [geminiService.ts]: the generation functions *)
(* ===================================================================== *)

(** [types.ts]: [ImageAspectRatio]. *)
Variant ImageAspectRatio :=
| Image_1_1 | Image_3_4 | Image_4_3 | Image_16_9 | Image_9_16.

(** [contents] of a [generateContent] call: a prompt string, or a list of
    contents. *)
Variant Contents :=
| PromptString (prompt : jsstring)
| ContentList (contents : list Content).

(** The [config] member, as far as the service sets it. *)
Record GenerationConfig := mkConfig {
  thinkingBudget : option N;
  responseModalities : list Modality;
  voiceName : option jsstring
}.

Record ContentRequest := mkContentRequest {
  cr_model : jsstring;
  cr_contents : Contents;
  cr_config : option GenerationConfig
}.

Record ImagesRequest := mkImagesRequest {
  gi_model : jsstring;
  gi_prompt : jsstring;
  gi_numberOfImages : N;
  gi_outputMimeType : jsstring;
  gi_aspectRatio : ImageAspectRatio
}.

(** The SDK's [GenerateImagesResponse], each level optional as the SDK
    declares it. *)
Record Image := mkImage { imageBytes : option jsstring }.
Record GeneratedImage := mkGeneratedImage { image : option Image }.
Record GenerateImagesResponse := mkImagesResponse {
  generatedImages : option (list GeneratedImage)
}.

(** The Web Audio objects the speech panel handles, by identity. *)
Record AudioContext := mkAudioContext { context_id : N }.
Record AudioBuffer := mkAudioBuffer { buffer_id : N }.
Record AudioBufferSourceNode := mkSource { source_id : N }.

(** What the generation functions ask of the SDK and of the console, and
    what the speech panel asks of the browser and of [utils]. *)
Variant genE : Type -> Type :=
| GenerateContentWith (ai : GoogleGenAI) (p : ContentRequest)
    : genE (Completion GenerateContentResponse)
    (* [await ai.models.generateContent(p)] *)
| GenerateImages (ai : GoogleGenAI) (p : ImagesRequest)
    : genE (Completion GenerateImagesResponse)
    (* [await ai.models.generateImages(p)] *)
| ConsoleErrorWith (label : jsstring) (error : Thrown) : genE unit
    (* [console.error(label, error)] *)
| ContextState (ctx : AudioContext) : genE jsstring
    (* [ctx.state] *)
| NewAudioContext (sampleRate : N) : genE (Completion AudioContext)
    (* [new (window.AudioContext || window.webkitAudioContext)({ sampleRate })] *)
| Decode (base64 : jsstring) : genE (Completion (list N))
    (* [decode(base64)] of [utils] *)
| DecodeAudioData (bytes : list N) (ctx : AudioContext)
    (sampleRate numChannels : N) : genE (Completion AudioBuffer)
    (* [await decodeAudioData(bytes, ctx, sampleRate, numChannels)] of [utils] *)
| CreateBufferSource (ctx : AudioContext)
    : genE (Completion AudioBufferSourceNode)
    (* [ctx.createBufferSource()] *)
| SetBuffer (source : AudioBufferSourceNode) (buffer : AudioBuffer)
    : genE (Completion unit)
    (* [source.buffer = buffer] *)
| ConnectToDestination (source : AudioBufferSourceNode) (ctx : AudioContext)
    : genE (Completion unit)
    (* [source.connect(ctx.destination)] *)
| Start (source : AudioBufferSourceNode) : genE (Completion unit).
    (* [source.start()] *)

Definition appE : Type -> Type := svcE +' genE.

Definition gen (A : Type) : Type := itree appE (Completion A).

(** A program of the first layer, among the events of both. *)
Definition lift {A} (p : itree svcE A) : itree appE A :=
  translate (fun T (e : svcE T) => inl1 e) p.

Definition ask {T} (e : genE T) : itree appE T := ITree.trigger (inr1 e).

(** Sequencing outside any [try], as [bindC]. *)
Definition bindG {A B} (p : gen A) (k : A -> gen B) : gen B :=
  ITree.bind p (fun c =>
    match c with
    | Normal a => k a
    | Throw e => Ret (Throw e)
    end).

Declare Scope gen_scope.
Delimit Scope gen_scope with gen.
Notation "x <~ t ;; k" := (bindG t (fun x => k))
  (at level 61, t at next level, right associativity) : gen_scope.

Definition text_request (prompt : jsstring) : ContentRequest :=
  mkContentRequest (js "gemini-2.5-flash") (PromptString prompt) None.

(** [generateText]: the body of the [try], then the [catch] that logs and
    throws again. *)
Definition generateText (prompt : jsstring) : gen jsstring :=
  c <- (ai <~ lift getAi ;;
        response <~ ask (GenerateContentWith ai (text_request prompt)) ;;
        Ret (Normal (text response)))%gen ;;
  match c with
  | Normal text => Ret (Normal text)
  | Throw error =>
      ask (ConsoleErrorWith (js "Error generating text:") error) ;;
      Ret (Throw error)
  end.

Definition images_request (prompt : jsstring) (aspectRatio : ImageAspectRatio)
  : ImagesRequest :=
  mkImagesRequest (js "imagen-4.0-generate-001") prompt 1 (js "image/jpeg")
                  aspectRatio.

(** [response.generatedImages[0].image.imageBytes], read without [?.]: a
    missing level is a [TypeError] of the runtime, and only the last read
    may give [undefined]. *)
Definition first_image_bytes (r : GenerateImagesResponse)
  : Completion (option jsstring) :=
  match generatedImages r with
  | None =>
      Throw (TypeError (js "Cannot read properties of undefined (reading '0')"))
  | Some [] =>
      Throw (TypeError
               (js "Cannot read properties of undefined (reading 'image')"))
  | Some (g :: _) =>
    match image g with
    | None =>
        Throw (TypeError
                 (js "Cannot read properties of undefined (reading 'imageBytes')"))
    | Some i => Normal (imageBytes i)
    end
  end.

Definition generateImage (prompt : jsstring) (aspectRatio : ImageAspectRatio)
  : gen jsstring :=
  (ai <~ lift getAi ;;
   response <~ ask (GenerateImages ai (images_request prompt aspectRatio)) ;;
   base64ImageBytes <~ Ret (first_image_bytes response) ;;
   Ret (Normal (js "data:image/jpeg;base64," ++ render base64ImageBytes)))%gen.

Definition thinking_request (prompt : jsstring) : ContentRequest :=
  mkContentRequest (js "gemini-2.5-pro") (PromptString prompt)
                   (Some (mkConfig (Some 32768) [] None)).

Definition generateWithThinking (prompt : jsstring) : gen jsstring :=
  (ai <~ lift getAi ;;
   response <~ ask (GenerateContentWith ai (thinking_request prompt)) ;;
   Ret (Normal (text response)))%gen.

Definition speech_request (text : jsstring) : ContentRequest :=
  mkContentRequest (js "gemini-2.5-flash-preview-tts")
                   (ContentList [mkContent (Some [TextPart text])])
                   (Some (mkConfig None [AUDIO] (Some (js "Kore")))).

(** [response.candidates?.[0]?.content?.parts?.[0]?.inlineData?.data]. *)
Definition base64Audio (r : GenerateContentResponse) : option jsstring :=
  match candidates r with
  | Some (c :: _) =>
    match content c with
    | Some ct =>
      match parts ct with
      | Some (p :: _) =>
        match inlineData p with
        | Some d => Some (data d)
        | None => None
        end
      | _ => None
      end
    | None => None
    end
  | _ => None
  end.

Definition textToSpeech (text : jsstring) : gen jsstring :=
  (ai <~ lift getAi ;;
   response <~ ask (GenerateContentWith ai (speech_request text)) ;;
   match base64Audio response with
   | Some audio =>
       if truthy audio then Ret (Normal audio)
       else Ret (Throw (Error (js "Text-to-speech conversion failed.")))
   | None => Ret (Throw (Error (js "Text-to-speech conversion failed.")))
   end)%gen.

(* ===================================================================== *)
(** ** [App.tsx]: the image editing panel *)
(* ===================================================================== *)

Module ImageEditPanel.
Section Panel.

Variable t : jsstring -> jsstring.

Record State := mkState {
  prompt : jsstring;
  imageFile : option File;
  result : jsstring;
  loading : bool;
  error : jsstring
}.

(** [handleSubmit]: the guard on the file, the reset, the call, then
    [try]/[catch]/[finally]. *)
Definition handleSubmit (s : State) : itree svcE State :=
  match imageFile s with
  | None =>
      Ret (mkState (prompt s) (imageFile s) (result s) (loading s)
                   (t (js "error.noImage")))
  | Some file =>
      let s0 := mkState (prompt s) (imageFile s) [] true [] in
      c <- editImage file (prompt s) ;;
      let s1 :=
        match c with
        | Normal imageUrl =>
            mkState (prompt s0) (imageFile s0) imageUrl (loading s0) (error s0)
        | Throw _ =>
            mkState (prompt s0) (imageFile s0) (result s0) (loading s0)
                    (t (js "error"))
        end in
      Ret (mkState (prompt s1) (imageFile s1) (result s1) false (error s1))
  end.

(** What a submit leaves behind. *)
Definition settled (s : State) (u : Trace) (s' : State) : Prop :=
  prompt s' = prompt s /\ imageFile s' = imageFile s /\
  match imageFile s with
  | None =>
      u = [] /\ result s' = result s /\ loading s' = loading s /\
      error s' = t (js "error.noImage")
  | Some _ =>
      loading s' = false /\
      ((exists d, result s' = data_uri d /\ error s' = []) \/
       (result s' = [] /\ error s' = t (js "error")))
  end.

End Panel.
End ImageEditPanel.

(* ===================================================================== *)
(** ** [App.tsx]: the video and audio analysis panels *)
(* ===================================================================== *)

Module AnalysisPanel.

(** The [useState] cells; [loadingState] holds ['idle'], ['uploading'] or
    ['analyzing']. *)
Record State := mkState {
  prompt : jsstring;
  file : option File;
  result : jsstring;
  loadingState : jsstring;
  error : jsstring
}.

(** [const loading = loadingState !== 'idle']. *)
Definition loading (s : State) : bool :=
  negb (jsstring_eqb (loadingState s) (js "idle")).

Definition handleStateChange (state : jsstring) (s : State) : State :=
  if jsstring_eqb state (js "uploading") || jsstring_eqb state (js "analyzing")
  then mkState (prompt s) (file s) (result s) state (error s)
  else s.

(** The panel as the observer of the service: a notification runs
    [handleStateChange] and returns; every other call goes on to the
    outside. *)
Definition observe : svcE ~> Monads.stateT State (itree svcE) :=
  fun T e s =>
    match e in svcE T' return itree svcE (State * T') with
    | OnStateChange state => Ret (handleStateChange state s, Normal tt)
    | e' => x <- ITree.trigger e' ;; Ret (s, x)
    end.

Section Panel.

Variable t : jsstring -> jsstring.

(** [VideoAnalysisPanel] or [AudioAnalysisPanel]. *)
Variable kind : AnalysisKind.

Definition no_file_key : jsstring :=
  match kind with
  | VideoAnalysis => js "error.noVideo"
  | AudioAnalysis => js "error.noAudio"
  end.

Definition handleSubmit (s : State) : itree svcE State :=
  match file s with
  | None =>
      Ret (mkState (prompt s) (file s) (result s) (loadingState s)
                   (t no_file_key))
  | Some f =>
      let s0 := mkState (prompt s) (file s) [] (js "uploading") [] in
      r <- interp_state observe (analyzeContent kind f (prompt s)) s0 ;;
      let s1 := fst r in
      let s2 :=
        match snd r with
        | Normal text =>
            mkState (prompt s1) (file s1) text (loadingState s1) (error s1)
        | Throw _ =>
            mkState (prompt s1) (file s1) (result s1) (loadingState s1)
                    (t (js "error"))
        end in
      Ret (mkState (prompt s2) (file s2) (result s2) (js "idle") (error s2))
  end.

Definition getButtonLabel (s : State) : jsstring :=
  if jsstring_eqb (loadingState s) (js "uploading") then t (js "uploading")
  else if jsstring_eqb (loadingState s) (js "analyzing")
       then t (js "analyzing")
       else t (js "submitButton").

End Panel.

(** The panel state after the notifications of a trace. *)
Definition shown (u : Trace) (s : State) : State :=
  fold_left (fun s state => handleStateChange state s) (phases u) s.

Definition is_notification (c : call) : bool :=
  match projT2 c with
  | OnStateChange _ => true
  | _ => false
  end.

(** The calls that go on to the outside. *)
Definition passed_on (u : Trace) : Trace :=
  filter (fun c => negb (is_notification c)) u.

End AnalysisPanel.

(* ===================================================================== *)
(** ** [App.tsx]: the text and the thinking panel *)
(* ===================================================================== *)

Module PromptPanel.

(** [TextPanel] or [ThinkingPanel]: the same cells and the same
    [handleSubmit], on [generateText] or on [generateWithThinking]. *)
Variant Kind := Text | Thinking.

Definition service (k : Kind) : jsstring -> gen jsstring :=
  match k with
  | Text => generateText
  | Thinking => generateWithThinking
  end.

Record State := mkState {
  prompt : jsstring;
  result : jsstring;
  loading : bool;
  error : jsstring
}.

Section Panel.

Variable t : jsstring -> jsstring.
Variable kind : Kind.

Definition handleSubmit (s : State) : itree appE State :=
  let s0 := mkState (prompt s) [] true [] in
  c <- service kind (prompt s) ;;
  let s1 :=
    match c with
    | Normal text => mkState (prompt s0) text (loading s0) (error s0)
    | Throw _ => mkState (prompt s0) (result s0) (loading s0) (t (js "error"))
    end in
  Ret (mkState (prompt s1) (result s1) false (error s1)).

End Panel.
End PromptPanel.

(* ===================================================================== *)
(** ** [App.tsx]: the image generation panel *)
(* ===================================================================== *)

Module ImageGenPanel.
Section Panel.

Variable t : jsstring -> jsstring.

Record State := mkState {
  prompt : jsstring;
  aspectRatio : ImageAspectRatio;
  result : jsstring;
  loading : bool;
  error : jsstring
}.

Definition handleSubmit (s : State) : itree appE State :=
  let s0 := mkState (prompt s) (aspectRatio s) [] true [] in
  c <- generateImage (prompt s) (aspectRatio s) ;;
  let s1 :=
    match c with
    | Normal imageUrl =>
        mkState (prompt s0) (aspectRatio s0) imageUrl (loading s0) (error s0)
    | Throw _ =>
        mkState (prompt s0) (aspectRatio s0) (result s0) (loading s0)
                (t (js "error"))
    end in
  Ret (mkState (prompt s1) (aspectRatio s1) (result s1) false (error s1)).

End Panel.
End ImageGenPanel.

(* ===================================================================== *)
(** ** [App.tsx]: the text-to-speech panel *)
(* ===================================================================== *)

Module TextToSpeechPanel.

(** The [useState] cells and [audioContextRef]. *)
Record State := mkState {
  text : jsstring;
  audioData : jsstring;
  loading : bool;
  error : jsstring;
  audioContextRef : option AudioContext
}.

Section Panel.

Variable t : jsstring -> jsstring.

(** [audioContextRef.current = new AudioContext({ sampleRate: 24000 })]:
    the ref is assigned when the constructor returns. *)
Definition new_context (s : State)
  : itree appE (State * Completion AudioContext) :=
  c <- ask (NewAudioContext 24000) ;;
  match c with
  | Normal ctx =>
      Ret (mkState (text s) (audioData s) (loading s) (error s) (Some ctx),
           Normal ctx)
  | Throw e => Ret (s, Throw e)
  end.

(** The first statement of the [try] of [playAudio]: a context is made
    when the ref holds none or a closed one. *)
Definition ensure_context (s : State)
  : itree appE (State * Completion AudioContext) :=
  match audioContextRef s with
  | None => new_context s
  | Some ctx =>
      state <- ask (ContextState ctx) ;;
      if jsstring_eqb state (js "closed") then new_context s
      else Ret (s, Normal ctx)
  end.

(** The rest of the [try]: decode, build the source, start it. *)
Definition play (ctx : AudioContext) (base64Audio : jsstring) : gen unit :=
  (decodedBytes <~ ask (Decode base64Audio) ;;
   audioBuffer <~ ask (DecodeAudioData decodedBytes ctx 24000 1) ;;
   source <~ ask (CreateBufferSource ctx) ;;
   _ <~ ask (SetBuffer source audioBuffer) ;;
   _ <~ ask (ConnectToDestination source ctx) ;;
   ask (Start source))%gen.

(** [playAudio]: it returns, never throws; its [catch] sets the playback
    error. *)
Definition playAudio (base64Audio : jsstring) (s : State)
  : itree appE State :=
  if negb (truthy base64Audio) then Ret s
  else
    r <- ensure_context s ;;
    let s1 := fst r in
    c <- match snd r with
         | Normal ctx => play ctx base64Audio
         | Throw e => Ret (Throw e)
         end ;;
    match c with
    | Normal _ => Ret s1
    | Throw _ =>
        Ret (mkState (text s1) (audioData s1) (loading s1)
                     (t (js "error.audioPlayback")) (audioContextRef s1))
    end.

Definition handleSubmit (s : State) : itree appE State :=
  let s0 := mkState (text s) [] true [] (audioContextRef s) in
  c <- textToSpeech (text s) ;;
  s1 <- match c with
        | Normal data =>
            playAudio data
              (mkState (text s0) data (loading s0) (error s0)
                       (audioContextRef s0))
        | Throw _ =>
            Ret (mkState (text s0) (audioData s0) (loading s0)
                         (t (js "error")) (audioContextRef s0))
        end ;;
  Ret (mkState (text s1) (audioData s1) false (error s1)
               (audioContextRef s1)).

End Panel.

(** The calls that belong to playback. *)
Definition is_audio_call (c : Call appE) : bool :=
  match projT2 c with
  | inr1 (ContextState _) => true
  | inr1 (NewAudioContext _) => true
  | inr1 (Decode _) => true
  | inr1 (DecodeAudioData _ _ _ _) => true
  | inr1 (CreateBufferSource _) => true
  | inr1 (SetBuffer _ _) => true
  | inr1 (ConnectToDestination _ _) => true
  | inr1 (Start _) => true
  | _ => false
  end.

Definition audio_calls (u : Log appE) : Log appE := filter is_audio_call u.

Definition is_new_context (c : Call appE) : bool :=
  match projT2 c with
  | inr1 (NewAudioContext _) => true
  | _ => false
  end.

Definition contexts_made (u : Log appE) : nat :=
  List.length (filter is_new_context u).

(** What [playAudio] leaves behind, on audio data that is not empty. *)
Definition played (t : jsstring -> jsstring) (u0 : Log appE) (s : State)
    (u : Log appE) (s' : State) : Prop :=
  exists w,
    u = u0 ++ w /\ w <> [] /\ audio_calls w = w /\
    (contexts_made w <= 1)%nat /\
    text s' = text s /\ audioData s' = audioData s /\
    loading s' = loading s /\
    (error s' = error s \/ error s' = t (js "error.audioPlayback")).

End TextToSpeechPanel.

(* ===================================================================== *)
(** ** [App.tsx]: [AppContent], the screens *)
(* ===================================================================== *)

Module AppContent.

(** The feature panels, as components. *)
Variant Component :=
| VideoGenPanel | ImageGenPanel | ChatPanel | ThinkingPanel | ImageEditPanel
| VideoAnalysisPanel | AudioAnalysisPanel | TextToSpeechPanel | TextPanel.

Record Service := mkService { id : jsstring; component : Component }.

Definition servicesList : list Service :=
  [ mkService (js "videoGen") VideoGenPanel;
    mkService (js "imageGen") ImageGenPanel;
    mkService (js "chat") ChatPanel;
    mkService (js "thinking") ThinkingPanel;
    mkService (js "imageEdit") ImageEditPanel;
    mkService (js "videoAnalysis") VideoAnalysisPanel;
    mkService (js "audioAnalysis") AudioAnalysisPanel;
    mkService (js "tts") TextToSpeechPanel;
    mkService (js "text") TextPanel ].

Record User := mkUser { user_name : jsstring; email : jsstring }.

Variant Provider := google | yandex.

Definition provider_name (p : Provider) : jsstring :=
  match p with google => js "google" | yandex => js "yandex" end.

(** The [useState] cells of [AppContent]. *)
Record State := mkState {
  isAuthenticated : bool;
  user : option User;
  currentScreen : jsstring
}.

Definition initial : State := mkState false None (js "home").

(** [{ name: 'Content Creator', email: `creator@${provider}.com` }]. *)
Definition user_of (provider : Provider) : User :=
  mkUser (js "Content Creator")
         (js "creator@" ++ provider_name provider ++ js ".com").

Definition handleLogin (provider : Provider) (s : State) : State :=
  mkState true (Some (user_of provider)) (currentScreen s).

Definition handleLogout (s : State) : State :=
  mkState false None (js "home").

Definition setCurrentScreen (screen : jsstring) (s : State) : State :=
  mkState (isAuthenticated s) (user s) screen.

(** [services.find(s => s.id === currentScreen)]. *)
Definition activeService (s : State) : option Service :=
  find (fun sv => jsstring_eqb (id sv) (currentScreen s)) servicesList.

(** What [AppContent] renders.  The settings screen is given [user!], the
    user cell as it is; the service screen is given the service found, if
    any, and shows no panel without one. *)
Variant View :=
| LoginScreen
| HomeScreen
| SettingsPanel (u : option User)
| ServiceScreen (active : option Service).

Definition render (s : State) : View :=
  if negb (isAuthenticated s) then LoginScreen
  else if jsstring_eqb (currentScreen s) (js "home") then HomeScreen
  else if jsstring_eqb (currentScreen s) (js "settings")
       then SettingsPanel (user s)
       else ServiceScreen (activeService s).

(** The controls of the screens. *)
Variant Event :=
| Login (provider : Provider)   (* a button of the login screen *)
| OpenSettings                  (* the gear of the home screen *)
| OpenService (sv : Service)    (* a tile of the home screen *)
| Back                          (* the arrow of a settings or service screen *)
| Logout.                       (* the button of the settings screen *)

(** One event on the latest render; a control that is not on the screen
    delivers no event, and the tiles are those of [servicesList]. *)
Definition dispatch (s : State) (e : Event) : State :=
  match render s, e with
  | LoginScreen, Login provider => handleLogin provider s
  | HomeScreen, OpenSettings => setCurrentScreen (js "settings") s
  | HomeScreen, OpenService sv =>
      if existsb (fun sv' => jsstring_eqb (id sv') (id sv)) servicesList
      then setCurrentScreen (id sv) s
      else s
  | SettingsPanel _, Back => setCurrentScreen (js "home") s
  | SettingsPanel _, Logout => handleLogout s
  | ServiceScreen _, Back => setCurrentScreen (js "home") s
  | _, _ => s
  end.

Definition play (s : State) (es : list Event) : State :=
  fold_left dispatch es s.

(** What every event preserves. *)
Definition coherent (s : State) : Prop :=
  (isAuthenticated s = true ->
   exists provider, user s = Some (user_of provider)) /\
  (isAuthenticated s = false ->
   user s = None /\ currentScreen s = js "home") /\
  (currentScreen s = js "home" \/ currentScreen s = js "settings" \/
   exists sv, In sv servicesList /\ currentScreen s = id sv).

End AppContent.

(* ===================================================================== *)
(** ** [App.tsx]: the key gate of the video generation panel *)
(* ===================================================================== *)

Module VideoGenKey.

(** The two cells that decide what [VideoGenPanel] renders. *)
Record Cells := mkCells {
  apiKeySelected : bool;
  checkingApiKey : bool
}.

Definition initial : Cells := mkCells false true.

Section Window.

(** Whether [window.aistudio] is defined. *)
Variable aistudio : bool.

(** [checkKey] of the mount effect, with what
    [window.aistudio.hasSelectedApiKey()] settles with when it is called.
    A rejection leaves [checkKey] before its last statement. *)
Definition checkKey (c : Completion bool) (g : Cells) : Cells :=
  if aistudio
  then match c with
       | Normal true => mkCells true false
       | Normal false => mkCells (apiKeySelected g) false
       | Throw _ => g
       end
  else mkCells (apiKeySelected g) false.

(** [handleSelectKey], with what [window.aistudio.openSelectKey()]
    settles with when it is called. *)
Definition handleSelectKey (c : Completion unit) (g : Cells) : Cells :=
  if aistudio
  then match c with
       | Normal _ => mkCells true (checkingApiKey g)
       | Throw _ => g
       end
  else g.

Variant View := Spinner | KeyNeeded | Form.

Definition render (g : Cells) : View :=
  if checkingApiKey g then Spinner
  else if negb (apiKeySelected g) then KeyNeeded
  else Form.

(** A click on the button of the key screen; the button is on no other
    screen. *)
Definition click (g : Cells) (c : Completion unit) : Cells :=
  match render g with
  | KeyNeeded => handleSelectKey c g
  | _ => g
  end.

(** The panel after its mount effect and a sequence of clicks. *)
Definition play (checked : Completion bool) (clicks : list (Completion unit))
  : Cells :=
  fold_left click clicks (checkKey checked initial).

End Window.

End VideoGenKey.

(* ===================================================================== *)
(** ** The chat panel: reading the history *)
(* ===================================================================== *)

Module ChatHistory.
Import ChatPanel.

(** The messages handed to [sendMessage], in order. *)
Definition sent_messages (w : list Wire) : list jsstring :=
  flat_map (fun x => match x with Sent m => [m] | Settled => [] end) w.

Definition is_user (m : ChatMessage) : bool :=
  match role m with user => true | model => false end.

(** The texts of the history's user entries, in order. *)
Definition user_texts (ms : list ChatMessage) : list (list jsstring) :=
  List.map msg_parts (filter is_user ms).

(** The history and the wire log tell the same story. *)
Definition recorded (s : State) : Prop :=
  user_texts (messages s) = List.map (fun m => [m]) (sent_messages (wire s)).

End ChatHistory.

(* ===================================================================== *)
(** ** Reading traces and logs of both layers *)
(* ===================================================================== *)

(** Network requests of any kind. *)
Definition is_request (c : call) : bool :=
  match projT2 c with
  | Fetch _ => true
  | FetchDetached _ => true
  | _ => false
  end.

Definition requests (tr : Trace) : Trace := filter is_request tr.

(** The remote copy is deleted exactly when the analysis came back: one
    analysis call and one delete request then, no delete request
    otherwise. *)
Definition tidy (u : Trace) (c : Completion jsstring) : Prop :=
  match c with
  | Normal _ => List.length (delete_requests u) = 1%nat /\
                List.length (analysis_calls u) = 1%nat
  | Throw _ => delete_requests u = []
  end.

(** What [editImage] returns is a data URI; it asks the provider at most
    once. *)
Definition edited_or_thrown (u : Trace) (c : Completion jsstring) : Prop :=
  (List.length (analysis_calls u) <= 1)%nat /\
  match c with
  | Normal url => exists d, url = data_uri d
  | Throw _ => True
  end.

(** A call of the first layer and a call of the second, as log entries. *)
Definition svc_call {T} (e : svcE T) : Call appE :=
  call_of (E := appE) (inl1 e).
Definition gen_call {T} (e : genE T) : Call appE :=
  call_of (E := appE) (inr1 e).

(** What is written to the console by [console.error(label, error)]. *)
Definition logged (u : Log appE) : list (jsstring * Thrown) :=
  flat_map (fun c : Call appE =>
              match projT2 c with
              | inr1 (ConsoleErrorWith label error) => [(label, error)]
              | _ => []
              end) u.

(** The calls to the provider's models. *)
Definition is_model_call (c : Call appE) : bool :=
  match projT2 c with
  | inr1 (GenerateContentWith _ _) => true
  | inr1 (GenerateImages _ _) => true
  | inl1 (GenerateContent _ _) => true
  | inl1 (GenerateVideos _ _) => true
  | _ => false
  end.

Definition model_calls (u : Log appE) : Log appE := filter is_model_call u.

(** [generateText] logs what it throws. *)
Definition text_or_logged (u : Log appE) (c : Completion jsstring) : Prop :=
  (List.length (model_calls u) <= 1)%nat /\
  match c with
  | Normal _ => logged u = []
  | Throw e => logged u = [(js "Error generating text:", e)]
  end.

Definition jpeg_prefix : jsstring := js "data:image/jpeg;base64,".

Definition jpeg_or_thrown (u : Log appE) (c : Completion jsstring) : Prop :=
  (List.length (model_calls u) <= 1)%nat /\
  match c with
  | Normal url => exists rest, url = jpeg_prefix ++ rest
  | Throw _ => True
  end.

(** The client built and the model asked, from an empty log. *)
Definition asked (env : Answers appE) : Log appE :=
  [svc_call EnvApiKey; svc_call (NewGoogleGenAI (env _ (inl1 EnvApiKey) []))].

Definition client_built (env : Answers appE) (ai : GoogleGenAI) : Prop :=
  env _ (inl1 (NewGoogleGenAI (env _ (inl1 EnvApiKey) [])))
      [svc_call EnvApiKey] = Normal ai.

Definition speech_or_thrown (u : Log appE) (c : Completion jsstring) : Prop :=
  (List.length (model_calls u) <= 1)%nat /\
  match c with
  | Normal audio => truthy audio = true
  | Throw _ => True
  end.

Definition text_unlogged (u : Log appE) (c : Completion jsstring) : Prop :=
  (List.length (model_calls u) <= 1)%nat /\ logged u = [].

(* ===================================================================== *)
(** ** More scripted environments *)
(* ===================================================================== *)

Definition no_key : Script :=
  mkScript (on_state all_well) None (base64 all_well)
           (fetched all_well) (object_url all_well)
           (generated all_well) (videos all_well) (refreshed all_well).

Definition forbidden : Response :=
  mkResponse false (Normal (js "{error: 403}"))
             (Throw (Error (js "Unexpected token")))
             (Normal (mkBlob [123; 101; 125])).

(** The operation is pending at first and after the first two polls, and
    finished, with a link, on the third; the download is answered 403. *)
Definition download_refused : Script :=
  mkScript (on_state all_well) (api_key all_well) (base64 all_well)
           (fun _ => Normal forbidden) (object_url all_well)
           (generated all_well)
           (videos slow_video) (refreshed slow_video).

(** [response.candidates?.[0]?.content?.parts]: the parts list an answer
    carries, if it carries one. *)
Definition answer_parts (r : GenerateContentResponse) : option (list Part) :=
  match candidates r with
  | Some (c :: _) =>
    match content c with
    | Some ct => parts ct
    | None => None
    end
  | _ => None
  end.

(** The provider refuses the prompt: an answer without candidates. *)
Definition refused_answer : GenerateContentResponse := mkGCResponse [] None.

Definition prompt_refused : Script :=
  mkScript (on_state all_well) (api_key all_well) (base64 all_well)
           (fetched all_well) (object_url all_well)
           (fun _ => Normal refused_answer)
           (videos all_well) (refreshed all_well).

(** Every poll answers not done. *)
Definition never_done : Script :=
  mkScript (on_state all_well) (api_key all_well) (base64 all_well)
           (fetched all_well) (object_url all_well) (generated all_well)
           (fun _ => Normal pending_op) (fun _ => Normal pending_op).

(** An environment of both layers: the first layer answered as [s]
    scripts it, the models with [content] and [images], and a browser
    that plays what it is given. *)
Definition answering (s : Script)
    (content : Completion GenerateContentResponse)
    (images : Completion GenerateImagesResponse) : Answers appE :=
  fun T e tr =>
    match e with
    | inl1 e' => respond (scripted s) e' []
    | inr1 e' =>
      match e' in genE T' return T' with
      | GenerateContentWith _ _ => content
      | GenerateImages _ _ => images
      | ConsoleErrorWith _ _ => tt
      | ContextState _ => js "running"
      | NewAudioContext _ => Normal (mkAudioContext 1)
      | Decode _ => Normal []
      | DecodeAudioData _ _ _ _ => Normal (mkAudioBuffer 1)
      | CreateBufferSource _ => Normal (mkSource 1)
      | SetBuffer _ _ => Normal tt
      | ConnectToDestination _ _ => Normal tt
      | Start _ => Normal tt
      end
    end.

Definition no_images : Answers appE :=
  answering all_well (Normal (mkGCResponse (js "ok") None))
            (Normal (mkImagesResponse (Some []))).

(** The text comes first, the audio second. *)
Definition audio_second : GenerateContentResponse :=
  mkGCResponse []
    (Some [mkCandidate
             (Some (mkContent
                      (Some [TextPart (js "Here is the audio.");
                             InlinePart (mkInline (js "UklGRg==")
                                                  (js "audio/L16"))])))]).

(* ===================================================================== *)
(** ** Runs: equations *)
(* ===================================================================== *)

Section Runs.

Variable env : Env.

Lemma run_ret R (r : R) tr : run env (Ret r) tr ≈ Ret (tr, r).
Proof. unfold run. rewrite interp_state_ret. reflexivity. Qed.

(** An event is answered by the environment and joins the trace. *)
Lemma run_trigger_bind T (e : svcE T) R (k : T -> itree svcE R) tr :
  run env (ITree.bind (ITree.trigger e) k) tr
  ≈ run env (k (respond env e tr)) (tr ++ [ev e]).
Proof.
  unfold run. rewrite interp_state_bind, interp_state_trigger.
  unfold handle at 1. rewrite bind_ret_l. reflexivity.
Qed.

Lemma run_await A (e : svcE (Completion A)) tr :
  run env (await e) tr ≈ Ret (tr ++ [ev e], respond env e tr).
Proof.
  unfold run, await. rewrite interp_state_trigger. reflexivity.
Qed.

Lemma run_bind A B (t : itree svcE A) (k : A -> itree svcE B) tr tr' a :
  run env t tr ≈ Ret (tr', a) ->
  run env (ITree.bind t k) tr ≈ run env (k a) tr'.
Proof.
  unfold run. intros H. rewrite interp_state_bind, H, bind_ret_l.
  reflexivity.
Qed.

Lemma run_bindC_normal A B (t : svc A) (k : A -> svc B) tr tr' a :
  run env t tr ≈ Ret (tr', Normal a) ->
  run env (bindC t k) tr ≈ run env (k a) tr'.
Proof.
  intros H. unfold bindC. rewrite (run_bind _ _ _ _ _ _ _ H). reflexivity.
Qed.

Lemma run_bindC_throw A B (t : svc A) (k : A -> svc B) tr tr' e :
  run env t tr ≈ Ret (tr', Throw e) ->
  run env (bindC t k) tr ≈ Ret (tr', Throw e).
Proof.
  intros H. unfold bindC. rewrite (run_bind _ _ _ _ _ _ _ H). apply run_ret.
Qed.

Lemma run_await_bindC A B (e : svcE (Completion A)) (k : A -> svc B) tr :
  run env (bindC (await e) k) tr
  ≈ match respond env e tr with
    | Normal a => run env (k a) (tr ++ [ev e])
    | Throw x => Ret (tr ++ [ev e], Throw x)
    end.
Proof.
  unfold bindC, await. rewrite run_trigger_bind.
  destruct (respond env e tr); [reflexivity | apply run_ret].
Qed.

Lemma run_ret_bindC A B (c : Completion A) (k : A -> svc B) tr :
  run env (bindC (Ret c) k) tr
  ≈ match c with
    | Normal a => run env (k a) tr
    | Throw x => Ret (tr, Throw x)
    end.
Proof.
  unfold bindC, run. rewrite interp_state_bind, interp_state_ret, bind_ret_l.
  destruct c; [reflexivity | apply run_ret].
Qed.

(** A run has one outcome. *)
Lemma run_deterministic R (p : itree svcE R) tr (a b : Trace * R) :
  run env p tr ≈ Ret a -> run env p tr ≈ Ret b -> a = b.
Proof.
  intros Ha Hb. rewrite Ha in Hb. apply eutt_inv_Ret in Hb. exact Hb.
Qed.

End Runs.

Arguments run_bind {env A B t} k {tr tr' a} _.
Arguments run_bindC_normal {env A B t} k {tr tr' a} _.
Arguments run_bindC_throw {env A B t} k {tr tr' e} _.
Arguments run_deterministic {env R p tr a b} _ _.

(** One step of symbolic execution of a run. *)
Ltac run_step :=
  first [ rewrite run_await_bindC
        | rewrite run_ret_bindC
        | rewrite run_trigger_bind
        | rewrite run_await
        | rewrite run_ret ];
  cbv beta iota.

(** Case analysis on the next answer a run equation depends on. *)
Ltac next_answer H :=
  match type of H with
  | context [match ?x with Normal _ => _ | Throw _ => _ end] =>
      let Hx := fresh "Hanswer" in destruct x eqn:Hx
  end.

(* ===================================================================== *)
(** ** Trace readers and concatenation *)
(* ===================================================================== *)

Lemma phases_app (a b : Trace) : phases (a ++ b) = phases a ++ phases b.
Proof. unfold phases. apply flat_map_app. Qed.

Lemma delete_requests_app (a b : Trace) :
  delete_requests (a ++ b) = delete_requests a ++ delete_requests b.
Proof. unfold delete_requests. apply filter_app. Qed.

Lemma analysis_calls_app (a b : Trace) :
  analysis_calls (a ++ b) = analysis_calls a ++ analysis_calls b.
Proof. unfold analysis_calls. apply filter_app. Qed.

Lemma deliveries_app (a b : Trace) :
  deliveries (a ++ b) = deliveries a ++ deliveries b.
Proof. unfold deliveries. apply filter_app. Qed.

Lemma count_polls_app (a b : Trace) :
  count_polls (a ++ b) = (count_polls a + count_polls b)%nat.
Proof. unfold count_polls. rewrite filter_app, length_app. reflexivity. Qed.

Lemma poll_trace_cons (ai : GoogleGenAI) (op : Operation)
    (ops : list Operation) :
  poll_trace ai (op :: ops) = poll_trace ai [op] ++ poll_trace ai ops.
Proof. reflexivity. Qed.

Lemma count_polls_poll_trace (ai : GoogleGenAI) (ops : list Operation) :
  count_polls (poll_trace ai ops) = List.length ops.
Proof.
  induction ops as [|op ops IH]; [reflexivity|].
  rewrite poll_trace_cons, count_polls_app, IH. reflexivity.
Qed.

Lemma deliveries_poll_trace (ai : GoogleGenAI) (ops : list Operation) :
  deliveries (poll_trace ai ops) = [].
Proof. induction ops as [|op ops IH]; [reflexivity|exact IH]. Qed.

(* ===================================================================== *)
(** ** The client and the upload *)
(* ===================================================================== *)

Section Upload.

Variable env : Env.

(** [getAi] reads the key and builds the client: two events, always. *)
Lemma getAi_run (tr : Trace) :
  let apiKey := respond env EnvApiKey tr in
  run env getAi tr
  ≈ Ret (tr ++ [ev EnvApiKey; ev (NewGoogleGenAI apiKey)],
         respond env (NewGoogleGenAI apiKey) (tr ++ [ev EnvApiKey])).
Proof.
  intros apiKey. unfold getAi. run_step. run_step. fold apiKey.
  rewrite <- app_assoc. reflexivity.
Qed.

Lemma getAi_inv (tr tr' : Trace) (c : Completion GoogleGenAI) :
  run env getAi tr ≈ Ret (tr', c) ->
  exists apiKey,
    tr' = tr ++ [ev EnvApiKey; ev (NewGoogleGenAI apiKey)] /\
    c = respond env (NewGoogleGenAI apiKey) (tr ++ [ev EnvApiKey]) /\
    apiKey = respond env EnvApiKey tr.
Proof.
  intros Hrun. pose proof (run_deterministic Hrun (getAi_run tr)) as Heq.
  cbv zeta in Heq. injection Heq as -> ->. eexists. repeat split.
Qed.

(** [uploadFile] always comes back, and nothing it did was an observer
    call, a delete request or an analysis call. *)
Lemma uploadFile_runs (f : File) (tr : Trace) :
  exists u c,
    run env (uploadFile f) tr ≈ Ret (tr ++ u, c) /\
    phases u = [] /\ delete_requests u = [] /\ analysis_calls u = [].
Proof.
  unfold uploadFile.
  destruct (key_missing (respond env EnvApiKey tr)) eqn:Hkey.
  - exists [ev EnvApiKey]. eexists. split; [|repeat split; reflexivity].
    run_step. rewrite Hkey. unfold throw. run_step. reflexivity.
  - set (rq := upload_request f (respond env EnvApiKey tr)).
    destruct (respond env (Fetch rq) (tr ++ [ev EnvApiKey]))
      as [resp|e] eqn:Hfetch.
    + destruct (ok resp) eqn:Hok.
      * exists [ev EnvApiKey; ev (Fetch rq)]. exists (json_file resp).
        split; [|repeat split; reflexivity].
        run_step. rewrite Hkey. run_step. fold rq. rewrite Hfetch, Hok.
        cbn [negb]. run_step.
        destruct (json_file resp); try run_step;
          rewrite <- app_assoc; reflexivity.
      * destruct (text_body resp) as [errorText|e] eqn:Htext.
        -- exists [ev EnvApiKey; ev (Fetch rq);
                   ev (ConsoleError (js "File upload failed:") errorText)].
           eexists. split; [|repeat split; reflexivity].
           run_step. rewrite Hkey. run_step. fold rq. rewrite Hfetch, Hok.
           cbn [negb]. run_step. rewrite Htext. run_step.
           unfold throw. run_step. rewrite <- !app_assoc. reflexivity.
        -- exists [ev EnvApiKey; ev (Fetch rq)]. exists (Throw e).
           split; [|repeat split; reflexivity].
           run_step. rewrite Hkey. run_step. fold rq. rewrite Hfetch, Hok.
           cbn [negb]. run_step. rewrite Htext.
           rewrite <- !app_assoc. reflexivity.
    + exists [ev EnvApiKey; ev (Fetch rq)]. exists (Throw e).
      split; [|repeat split; reflexivity].
      run_step. rewrite Hkey. run_step. fold rq. rewrite Hfetch.
      rewrite <- !app_assoc. reflexivity.
Qed.

(** The non-ok branch of [uploadFile]: the response body becomes the
    message of the error, unless reading the body fails first. *)
Lemma uploadFile_not_ok (f : File) (tr : Trace) (resp : Response) :
  key_missing (respond env EnvApiKey tr) = false ->
  respond env (Fetch (upload_request f (respond env EnvApiKey tr)))
          (tr ++ [ev EnvApiKey]) = Normal resp ->
  ok resp = false ->
  exists u,
    delete_requests u = [] /\
    run env (uploadFile f) tr
    ≈ Ret (tr ++ u,
           match text_body resp with
           | Normal errorText =>
               Throw (Error (js "File upload failed: " ++ errorText))
           | Throw e => Throw e
           end).
Proof.
  intros Hkey Hfetch Hok. unfold uploadFile.
  destruct (text_body resp) as [errorText|e] eqn:Htext.
  - eexists [_; _; _]. split; cycle 1.
    + run_step. rewrite Hkey. run_step. rewrite Hfetch, Hok. cbn [negb].
      run_step. rewrite Htext. run_step. unfold throw. run_step.
      rewrite <- !app_assoc. cbn [app]. reflexivity.
    + reflexivity.
  - eexists [_; _]. split; cycle 1.
    + run_step. rewrite Hkey. run_step. rewrite Hfetch, Hok. cbn [negb].
      run_step. rewrite Htext. rewrite <- !app_assoc. cbn [app].
      reflexivity.
    + reflexivity.
Qed.

(** The ok branch of [uploadFile]: the parsed file resource is the
    result. *)
Lemma uploadFile_ok (f : File) (tr : Trace) (resp : Response) :
  key_missing (respond env EnvApiKey tr) = false ->
  respond env (Fetch (upload_request f (respond env EnvApiKey tr)))
          (tr ++ [ev EnvApiKey]) = Normal resp ->
  ok resp = true ->
  run env (uploadFile f) tr
  ≈ Ret (tr ++ [ev EnvApiKey;
                ev (Fetch (upload_request f (respond env EnvApiKey tr)))],
         json_file resp).
Proof.
  intros Hkey Hfetch Hok. unfold uploadFile.
  run_step. rewrite Hkey. run_step. rewrite Hfetch, Hok. cbn [negb].
  run_step. destruct (json_file resp); try run_step;
    rewrite <- !app_assoc; reflexivity.
Qed.

(** The trace of an upload that started after the first notification. *)
Lemma upload_trace (f : File) (u : Trace) (cu : Completion FileResource) :
  run env (uploadFile f) [notify "uploading"] ≈ Ret (u, cu) ->
  exists u', u = notify "uploading" :: u' /\
             phases u' = [] /\ delete_requests u' = [] /\
             analysis_calls u' = [].
Proof.
  intros Hup.
  destruct (uploadFile_runs f [notify "uploading"])
    as (u' & c & Hrun & Hp & Hd & Ha).
  pose proof (run_deterministic Hup Hrun) as Heq.
  injection Heq as -> ->. exists u'. auto.
Qed.

End Upload.

Arguments getAi_inv env {tr tr' c} _.
Arguments upload_trace env f {u cu} _.

(* ===================================================================== *)
(** ** The upload-analyze-cleanup pipeline *)
(* ===================================================================== *)

Section Pipeline.

Variable env : Env.

(** The run of an analysis function, stage by stage, given how its upload
    ends: every stage that ends abruptly ends the run there. *)
Lemma analyzeContent_run (k : AnalysisKind) (f : File) (prompt : jsstring)
    (u : Trace) (cu : Completion FileResource) :
  run env (uploadFile f) [notify "uploading"] ≈ Ret (u, cu) ->
  run env (analyzeContent k f prompt) []
  ≈ Ret
      match respond env (OnStateChange (js "uploading")) [] with
      | Throw e => ([notify "uploading"], Throw e)
      | Normal _ =>
        match cu with
        | Throw e => (u, Throw e)
        | Normal uploadedFile =>
          match respond env (OnStateChange (js "analyzing")) u with
          | Throw e => (u ++ [notify "analyzing"], Throw e)
          | Normal _ =>
            let tr := u ++ [notify "analyzing"] in
            let apiKey := respond env EnvApiKey tr in
            let tr1 := tr ++ [ev EnvApiKey; ev (NewGoogleGenAI apiKey)] in
            match respond env (NewGoogleGenAI apiKey) (tr ++ [ev EnvApiKey]) with
            | Throw e => (tr1, Throw e)
            | Normal ai =>
              let rq := GenerateContent ai
                          (analysis_request f uploadedFile prompt) in
              match respond env rq tr1 with
              | Throw e => (tr1 ++ [ev rq], Throw e)
              | Normal response =>
                  let tr2 := tr1 ++ [ev rq] in
                  (tr2 ++ [ev EnvApiKey;
                           ev (FetchDetached
                                 (delete_request uploadedFile
                                                 (respond env EnvApiKey tr2)))],
                   Normal (text response))
              end
            end
          end
        end
      end.
Proof.
  intros Hup.
  assert (Hboth : analyzeContent k f prompt = analyzeVideoContent f prompt)
    by (destruct k; reflexivity).
  rewrite Hboth. unfold analyzeVideoContent.
  run_step. destruct (respond env (OnStateChange (js "uploading")) []);
    [|reflexivity].
  change ([] ++ [ev (OnStateChange (js "uploading"))]) with [notify "uploading"].
  destruct cu as [uploadedFile|e].
  - rewrite (run_bindC_normal _ Hup).
    run_step. destruct (respond env (OnStateChange (js "analyzing")) u);
      [|reflexivity].
    pose proof (getAi_run env (u ++ [ev (OnStateChange (js "analyzing"))]))
      as Hai.
    cbv zeta in *.
    destruct (respond env (NewGoogleGenAI _) _) as [ai|e].
    + rewrite (run_bindC_normal _ Hai). run_step.
      destruct (respond env (GenerateContent ai _) _); [|reflexivity].
      run_step. run_step. run_step. rewrite <- !app_assoc. reflexivity.
    + rewrite (run_bindC_throw _ Hai). reflexivity.
  - rewrite (run_bindC_throw _ Hup). reflexivity.
Qed.

Arguments analyzeContent_run k f prompt {u cu} _.

(** Whatever makes [uploadFile] fail, the run ends there with that very
    error. *)
Lemma upload_error_propagates (k : AnalysisKind) (f : File)
    (prompt : jsstring) (u : Trace) (e : Thrown) :
  respond env (OnStateChange (js "uploading")) [] = Normal tt ->
  run env (uploadFile f) [notify "uploading"] ≈ Ret (u, Throw e) ->
  run env (analyzeContent k f prompt) [] ≈ Ret (u, Throw e) /\
  delete_requests u = [].
Proof.
  intros Hobs Hup. split.
  - rewrite (analyzeContent_run k f prompt Hup), Hobs. reflexivity.
  - destruct (upload_trace env f Hup) as (u' & -> & _ & Hd & _).
    exact Hd.
Qed.

(** The first statement of both functions is the notification; if it
    throws, that is all the run did. *)
Lemma first_notification_throws (k : AnalysisKind) (f : File)
    (prompt : jsstring) (e : Thrown) :
  respond env (OnStateChange (js "uploading")) [] = Throw e ->
  run env (analyzeContent k f prompt) [] ≈ Ret ([notify "uploading"], Throw e).
Proof.
  intros Hobs.
  destruct (uploadFile_runs env f [notify "uploading"]) as (u & c & Hup & _).
  rewrite (analyzeContent_run k f prompt Hup), Hobs. reflexivity.
Qed.

(** From the ['analyzing'] notification to the answer of the analysis
    call, when the observer returns and the client is built. *)
Lemma analysis_stage (k : AnalysisKind) (f : File) (prompt : jsstring)
    (u tr_ai : Trace) (uploadedFile : FileResource) (ai : GoogleGenAI) :
  respond env (OnStateChange (js "uploading")) [] = Normal tt ->
  run env (uploadFile f) [notify "uploading"] ≈ Ret (u, Normal uploadedFile) ->
  respond env (OnStateChange (js "analyzing")) u = Normal tt ->
  run env getAi (u ++ [notify "analyzing"]) ≈ Ret (tr_ai, Normal ai) ->
  let rq := GenerateContent ai (analysis_request f uploadedFile prompt) in
  delete_requests (tr_ai ++ [ev rq]) = [] /\
  run env (analyzeContent k f prompt) []
  ≈ Ret match respond env rq tr_ai with
        | Throw e => (tr_ai ++ [ev rq], Throw e)
        | Normal response =>
            ((tr_ai ++ [ev rq]) ++
             [ev EnvApiKey;
              ev (FetchDetached
                    (delete_request uploadedFile
                       (respond env EnvApiKey (tr_ai ++ [ev rq]))))],
             Normal (text response))
        end.
Proof.
  intros HobsU Hup HobsA Hai rq.
  destruct (getAi_inv env Hai) as (apiKey & -> & Hnew & ->).
  destruct (upload_trace env f Hup) as (u' & Hu & _ & Hd & _).
  split.
  - subst u.
    change (notify "uploading" :: u') with ([notify "uploading"] ++ u').
    rewrite !delete_requests_app, Hd. reflexivity.
  - rewrite (analyzeContent_run k f prompt Hup), HobsU, HobsA.
    cbv zeta. rewrite <- Hnew. reflexivity.
Qed.

End Pipeline.

Arguments analyzeContent_run env k f prompt {u cu} _.

(** C4.  When the upload is answered with a response that is not ok, the
    run of either analysis function ends with the error [uploadFile]
    threw (built from the response body, or the error of reading that
    body) and its trace holds no delete request. *)
Theorem upload_failure_no_cleanup (k : AnalysisKind) (env : Env) (f : File)
    (prompt : jsstring) (resp : Response) :
  respond env (OnStateChange (js "uploading")) [] = Normal tt ->
  key_missing (respond env EnvApiKey [notify "uploading"]) = false ->
  respond env
    (Fetch (upload_request f (respond env EnvApiKey [notify "uploading"])))
    [notify "uploading"; ev EnvApiKey] = Normal resp ->
  ok resp = false ->
  exists tr,
    delete_requests tr = [] /\
    run env (analyzeContent k f prompt) []
    ≈ Ret (tr,
           match text_body resp with
           | Normal errorText =>
               Throw (Error (js "File upload failed: " ++ errorText))
           | Throw e => Throw e
           end).
Proof.
  intros Hobs Hkey Hfetch Hok.
  destruct (uploadFile_not_ok env f [notify "uploading"] resp Hkey Hfetch Hok)
    as (u & _ & Hup).
  destruct (text_body resp) as [errorText|e];
    destruct (upload_error_propagates env k f prompt _ _ Hobs Hup)
      as [Hrun Hd];
    eauto.
Qed.

Lemma upload_failure_no_cleanup_witness :
  exists tr,
    delete_requests tr = [] /\
    run (scripted upload_fails)
        (analyzeContent AudioAnalysis clip (js "Transcribe")) []
    ≈ Ret (tr, Throw (Error (js "File upload failed: quota exceeded"))).
Proof.
  apply (upload_failure_no_cleanup AudioAnalysis (scripted upload_fails)
           clip (js "Transcribe") upload_refused); reflexivity.
Defined.

(** C1, as the code behaves.  When the upload returns a handle and the
    analysis call then throws [e], the run ends with [e] itself, the
    original error; but its trace holds no delete request where one is
    due: the cleanup statement, two lines on, is never reached. *)
Theorem analysis_failure_skips_cleanup (k : AnalysisKind) (env : Env)
    (f : File) (prompt : jsstring) (u tr_ai : Trace)
    (uploadedFile : FileResource) (ai : GoogleGenAI) (e : Thrown) :
  respond env (OnStateChange (js "uploading")) [] = Normal tt ->
  run env (uploadFile f) [notify "uploading"] ≈ Ret (u, Normal uploadedFile) ->
  respond env (OnStateChange (js "analyzing")) u = Normal tt ->
  run env getAi (u ++ [notify "analyzing"]) ≈ Ret (tr_ai, Normal ai) ->
  let rq := GenerateContent ai (analysis_request f uploadedFile prompt) in
  respond env rq tr_ai = Throw e ->
  run env (analyzeContent k f prompt) [] ≈ Ret (tr_ai ++ [ev rq], Throw e) /\
  delete_requests (tr_ai ++ [ev rq]) = [].
Proof.
  intros HobsU Hup HobsA Hai rq Hgen.
  destruct (analysis_stage env k f prompt _ _ _ _ HobsU Hup HobsA Hai)
    as [Hd Hrun].
  fold rq in Hd, Hrun. rewrite Hgen in Hrun. split; assumption.
Qed.

Lemma analysis_failure_skips_cleanup_witness :
  let rq := GenerateContent client
              (analysis_request clip remote_clip (js "Summarise")) in
  let tr := [notify "uploading"; ev EnvApiKey;
             ev (Fetch (upload_request clip the_key));
             notify "analyzing"; ev EnvApiKey; ev (NewGoogleGenAI the_key);
             ev rq] in
  run (scripted analysis_fails)
      (analyzeContent VideoAnalysis clip (js "Summarise")) []
  ≈ Ret (tr, Throw overloaded) /\
  delete_requests tr = [].
Proof.
  apply (analysis_failure_skips_cleanup VideoAnalysis (scripted analysis_fails)
           clip (js "Summarise")
           [notify "uploading"; ev EnvApiKey;
            ev (Fetch (upload_request clip the_key))]
           [notify "uploading"; ev EnvApiKey;
            ev (Fetch (upload_request clip the_key));
            notify "analyzing"; ev EnvApiKey; ev (NewGoogleGenAI the_key)]
           remote_clip client overloaded); try reflexivity.
  - apply (uploadFile_ok (scripted analysis_fails) clip [notify "uploading"]
             upload_ok); reflexivity.
  - apply (getAi_run (scripted analysis_fails)).
Defined.

(** The success path, for comparison: one delete request, issued after
    the analysis call has returned. *)
Lemma analysis_success_cleans_up (k : AnalysisKind) (env : Env) (f : File)
    (prompt : jsstring) (u tr_ai : Trace) (uploadedFile : FileResource)
    (ai : GoogleGenAI) (answer : GenerateContentResponse) :
  respond env (OnStateChange (js "uploading")) [] = Normal tt ->
  run env (uploadFile f) [notify "uploading"] ≈ Ret (u, Normal uploadedFile) ->
  respond env (OnStateChange (js "analyzing")) u = Normal tt ->
  run env getAi (u ++ [notify "analyzing"]) ≈ Ret (tr_ai, Normal ai) ->
  let rq := GenerateContent ai (analysis_request f uploadedFile prompt) in
  respond env rq tr_ai = Normal answer ->
  exists tr apiKey,
    run env (analyzeContent k f prompt) [] ≈ Ret (tr, Normal (text answer)) /\
    delete_requests tr
    = [ev (FetchDetached (delete_request uploadedFile apiKey))].
Proof.
  intros HobsU Hup HobsA Hai rq Hgen.
  destruct (analysis_stage env k f prompt _ _ _ _ HobsU Hup HobsA Hai)
    as [Hd Hrun].
  fold rq in Hd, Hrun. rewrite Hgen in Hrun.
  eexists. eexists. split; [exact Hrun|].
  rewrite delete_requests_app, Hd. reflexivity.
Qed.

(** C2, as the code has it.  An observer that throws ends the run with
    its own error: on ['uploading'] nothing else has happened, on
    ['analyzing'] the upload has and the analysis call has not. *)
Theorem observer_failure_aborts (k : AnalysisKind) (env : Env) (f : File)
    (prompt : jsstring) (e : Thrown) :
  (respond env (OnStateChange (js "uploading")) [] = Throw e ->
   run env (analyzeContent k f prompt) []
   ≈ Ret ([notify "uploading"], Throw e)) /\
  (forall u uploadedFile,
     respond env (OnStateChange (js "uploading")) [] = Normal tt ->
     run env (uploadFile f) [notify "uploading"]
     ≈ Ret (u, Normal uploadedFile) ->
     respond env (OnStateChange (js "analyzing")) u = Throw e ->
     run env (analyzeContent k f prompt) []
     ≈ Ret (u ++ [notify "analyzing"], Throw e) /\
     analysis_calls (u ++ [notify "analyzing"]) = []).
Proof.
  split.
  - apply first_notification_throws.
  - intros u uploadedFile HobsU Hup HobsA. split.
    + rewrite (analyzeContent_run env k f prompt Hup), HobsU, HobsA.
      reflexivity.
    + destruct (upload_trace env f Hup) as (u' & -> & _ & _ & Ha).
      change (notify "uploading" :: u') with ([notify "uploading"] ++ u').
      rewrite !analysis_calls_app, Ha. reflexivity.
Qed.

(** C2, as stated, fails: with collaborators that all succeed, an
    observer that throws leaves the task without upload, analysis or
    result, where the same task with a quiet observer returns the text. *)
Lemma observer_failure_counterexample :
  run (scripted observer_throws)
      (analyzeContent VideoAnalysis clip (js "Summarise")) []
  ≈ Ret ([notify "uploading"], Throw observer_bug) /\
  exists tr,
    run (scripted all_well)
        (analyzeContent VideoAnalysis clip (js "Summarise")) []
    ≈ Ret (tr, Normal (js "A short clip.")).
Proof.
  split.
  - apply first_notification_throws. reflexivity.
  - assert (Hup : run (scripted all_well) (uploadFile clip) [notify "uploading"]
                  ≈ Ret ([notify "uploading"; ev EnvApiKey;
                          ev (Fetch (upload_request clip the_key))],
                         Normal remote_clip))
      by (apply (uploadFile_ok (scripted all_well) clip [notify "uploading"]
                   upload_ok); reflexivity).
    destruct (analysis_success_cleans_up VideoAnalysis (scripted all_well)
                clip (js "Summarise") _ _ remote_clip client summary
                eq_refl Hup eq_refl (getAi_run (scripted all_well) _) eq_refl)
      as (tr & _ & Hrun & _).
    exists tr. exact Hrun.
Qed.

(** The success path.  When the observer returns from both
    notifications, the upload returns a handle, the client is built and
    the analysis call returns an answer, the run ends with the text of
    that answer, and its trace holds one delete request: it is the last
    entry, on the name of the uploaded file, with the key read after the
    analysis call. *)
Theorem success_path_deletes_once (k : AnalysisKind) (env : Env) (f : File)
    (prompt : jsstring) (u tr_ai : Trace) (uploadedFile : FileResource)
    (ai : GoogleGenAI) (answer : GenerateContentResponse) :
  respond env (OnStateChange (js "uploading")) [] = Normal tt ->
  run env (uploadFile f) [notify "uploading"] ≈ Ret (u, Normal uploadedFile) ->
  respond env (OnStateChange (js "analyzing")) u = Normal tt ->
  run env getAi (u ++ [notify "analyzing"]) ≈ Ret (tr_ai, Normal ai) ->
  let rq := GenerateContent ai (analysis_request f uploadedFile prompt) in
  respond env rq tr_ai = Normal answer ->
  let apiKey := respond env EnvApiKey (tr_ai ++ [ev rq]) in
  let cleanup := ev (FetchDetached (delete_request uploadedFile apiKey)) in
  let tr := (tr_ai ++ [ev rq]) ++ [ev EnvApiKey; cleanup] in
  run env (analyzeContent k f prompt) [] ≈ Ret (tr, Normal (text answer)) /\
  delete_requests tr = [cleanup] /\
  last tr (notify "uploading") = cleanup.
Proof.
  intros HobsU Hup HobsA Hai rq Hgen apiKey cleanup tr.
  destruct (analysis_stage env k f prompt _ _ _ _ HobsU Hup HobsA Hai)
    as [Hd Hrun].
  fold rq in Hd, Hrun. rewrite Hgen in Hrun. split; [exact Hrun|]. split.
  - unfold tr. rewrite delete_requests_app, Hd. reflexivity.
  - unfold tr.
    change [ev EnvApiKey; cleanup] with ([ev EnvApiKey] ++ [cleanup]).
    rewrite app_assoc. apply last_last.
Qed.

Lemma success_path_deletes_once_witness :
  let cleanup := ev (FetchDetached (delete_request remote_clip the_key)) in
  let rq := GenerateContent client
              (analysis_request clip remote_clip (js "Summarise")) in
  let tr := [notify "uploading"; ev EnvApiKey;
             ev (Fetch (upload_request clip the_key));
             notify "analyzing"; ev EnvApiKey; ev (NewGoogleGenAI the_key);
             ev rq; ev EnvApiKey; cleanup] in
  run (scripted all_well)
      (analyzeContent VideoAnalysis clip (js "Summarise")) []
  ≈ Ret (tr, Normal (js "A short clip.")) /\
  delete_requests tr = [cleanup] /\
  last tr (notify "uploading") = cleanup.
Proof.
  apply (success_path_deletes_once VideoAnalysis (scripted all_well)
           clip (js "Summarise")
           [notify "uploading"; ev EnvApiKey;
            ev (Fetch (upload_request clip the_key))]
           [notify "uploading"; ev EnvApiKey;
            ev (Fetch (upload_request clip the_key));
            notify "analyzing"; ev EnvApiKey; ev (NewGoogleGenAI the_key)]
           remote_clip client summary); try reflexivity.
  - apply (uploadFile_ok (scripted all_well) clip [notify "uploading"]
             upload_ok); reflexivity.
  - apply (getAi_run (scripted all_well)).
Defined.

(** C7.  Every run of either analysis function comes to an end, and in
    its trace: ['uploading'] is the first entry and occurs nowhere else;
    the observer is called with ['uploading'] alone or with ['uploading']
    then ['analyzing'], and no other way; and once the upload has returned
    its handle, ['analyzing'] is the very next entry, with no analysis
    call before it and no further notification after it. *)
Theorem observer_notified_in_order (k : AnalysisKind) (env : Env) (f : File)
    (prompt : jsstring) :
  exists tr c,
    run env (analyzeContent k f prompt) [] ≈ Ret (tr, c) /\
    (exists rest,
        tr = notify "uploading" :: rest /\
        ~ In (js "uploading") (phases rest)) /\
    (phases tr = [js "uploading"] \/
     phases tr = [js "uploading"; js "analyzing"]) /\
    (forall u uploadedFile,
        respond env (OnStateChange (js "uploading")) [] = Normal tt ->
        run env (uploadFile f) [notify "uploading"]
        ≈ Ret (u, Normal uploadedFile) ->
        exists rest,
          tr = u ++ notify "analyzing" :: rest /\
          phases u = [js "uploading"] /\ analysis_calls u = [] /\
          phases rest = []).
Proof.
  destruct (uploadFile_runs env f [notify "uploading"])
    as (u' & cu & Hup & Hp & Hd & Ha).
  pose proof (analyzeContent_run env k f prompt Hup) as Hrun.
  assert (Hne : ~ In (js "uploading") [js "analyzing"])
    by (intros [H|[]]; discriminate H).
  assert (Hpu : phases (notify "uploading" :: u') = [js "uploading"])
    by (change (phases (notify "uploading" :: u'))
          with (js "uploading" :: phases u'); rewrite Hp; reflexivity).
  assert (Hau : analysis_calls (notify "uploading" :: u') = []) by exact Ha.
  cbn [app] in Hrun, Hup. cbv zeta in Hrun.
  (* after the upload has returned: the same facts whatever follows *)
  assert (Hafter : forall rest c h,
    cu = Normal h ->
    run env (analyzeContent k f prompt) []
    ≈ Ret ((notify "uploading" :: u') ++ notify "analyzing" :: rest, c) ->
    phases rest = [] ->
    exists tr c,
      run env (analyzeContent k f prompt) [] ≈ Ret (tr, c) /\
      (exists rest0,
          tr = notify "uploading" :: rest0 /\
          ~ In (js "uploading") (phases rest0)) /\
      (phases tr = [js "uploading"] \/
       phases tr = [js "uploading"; js "analyzing"]) /\
      (forall u uploadedFile,
          respond env (OnStateChange (js "uploading")) [] = Normal tt ->
          run env (uploadFile f) [notify "uploading"]
          ≈ Ret (u, Normal uploadedFile) ->
          exists rest1,
            tr = u ++ notify "analyzing" :: rest1 /\
            phases u = [js "uploading"] /\ analysis_calls u = [] /\
            phases rest1 = [])).
  { intros rest c h -> Hrun' Hrest.
    eexists. eexists. split; [exact Hrun'|]. split; [|split].
    - exists (u' ++ notify "analyzing" :: rest). split; [reflexivity|].
      rewrite phases_app, Hp.
      change (phases (notify "analyzing" :: rest))
        with (js "analyzing" :: phases rest).
      rewrite Hrest. exact Hne.
    - right. rewrite phases_app, Hpu.
      change (phases (notify "analyzing" :: rest))
        with (js "analyzing" :: phases rest).
      rewrite Hrest. reflexivity.
    - intros u h' _ Hup'. pose proof (run_deterministic Hup Hup') as Heq.
      injection Heq as <- <-.
      exists rest. repeat split; assumption. }
  destruct (respond env (OnStateChange (js "uploading")) [])
    as [[]|e] eqn:HobsU.
  - destruct cu as [h|e].
    + repeat next_answer Hrun;
        rewrite <- ?app_assoc in Hrun; cbn [app] in Hrun;
        change (notify "uploading" :: u' ++ ?r)
          with ((notify "uploading" :: u') ++ r) in Hrun;
        exact (Hafter _ _ h eq_refl Hrun eq_refl).
    + eexists. eexists. split; [exact Hrun|]. split; [|split].
      * eexists. split; [reflexivity|]. rewrite Hp. intros [].
      * left. exact Hpu.
      * intros u h' _ Hup'.
        pose proof (run_deterministic Hup Hup') as Heq. discriminate Heq.
  - eexists. eexists. split; [exact Hrun|]. split; [|split].
    + eexists. split; [reflexivity|]. intros [].
    + left. reflexivity.
    + intros u h' Hcontra. discriminate Hcontra.
Qed.

(** C7, as stated, fails: when the upload is refused, the run ends with
    the upload's error and the observer has been called with
    ['uploading'] only; ['analyzing'] is not notified at all. *)
Lemma analyzing_skipped_counterexample :
  exists tr,
    run (scripted upload_fails)
        (analyzeContent VideoAnalysis clip (js "Summarise")) []
    ≈ Ret (tr, Throw (Error (js "File upload failed: quota exceeded"))) /\
    phases tr = [js "uploading"].
Proof.
  destruct (uploadFile_not_ok (scripted upload_fails) clip
              [notify "uploading"] upload_refused eq_refl eq_refl eq_refl)
    as (u & _ & Hup).
  assert (Hthrown : run (scripted upload_fails) (uploadFile clip)
                        [notify "uploading"]
                    ≈ Ret (notify "uploading" :: u,
                           Throw (Error
                                    (js "File upload failed: quota exceeded"))))
    by exact Hup.
  destruct (upload_error_propagates (scripted upload_fails) VideoAnalysis clip
              (js "Summarise") _ _ eq_refl Hthrown) as [Hrun _].
  destruct (upload_trace (scripted upload_fails) clip Hthrown)
    as (u' & Hu & Hp & _).
  exists (notify "uploading" :: u). split; [exact Hrun|].
  rewrite Hu.
  change (phases (notify "uploading" :: u')) with (js "uploading" :: phases u').
  rewrite Hp. reflexivity.
Qed.

(* ===================================================================== *)
(** ** The polling loop *)
(* ===================================================================== *)

Section Polling.

Variable env : Env.
Variable ai : GoogleGenAI.

(** A done operation leaves the loop untouched: no wait, no poll. *)
Lemma pollLoop_done (op : Operation) (tr : Trace) :
  is_done op = true ->
  run env (pollLoop ai op) tr ≈ Ret (tr, Normal op).
Proof.
  intros Hdone. unfold pollLoop. rewrite unfold_iter.
  unfold poll_body at 1. rewrite Hdone. cbn [negb].
  rewrite bind_ret_l. apply run_ret.
Qed.

(** One turn on an operation that is not done: wait, poll, and either go
    round with the refreshed operation or leave with the poll's error. *)
Lemma pollLoop_pending (op : Operation) (tr : Trace) :
  is_done op = false ->
  run env (pollLoop ai op) tr
  ≈ match respond env (GetVideosOperation ai op)
                  (tr ++ [ev (SetTimeout poll_interval)]) with
    | Normal op' => run env (pollLoop ai op') (tr ++ poll_trace ai [op])
    | Throw e => Ret (tr ++ poll_trace ai [op], Throw e)
    end.
Proof.
  intros Hdone. unfold pollLoop. rewrite unfold_iter.
  unfold poll_body at 1. rewrite Hdone. cbn [negb].
  rewrite !bind_bind. rewrite run_trigger_bind.
  unfold await. rewrite bind_bind. rewrite run_trigger_bind.
  rewrite <- app_assoc.
  destruct (respond env (GetVideosOperation ai op) _) as [op'|e].
  - rewrite bind_ret_l. unfold run. rewrite interp_state_tau, tau_eutt.
    reflexivity.
  - rewrite bind_ret_l. apply run_ret.
Qed.

(** Whatever the environment does, a run of the loop that ends has only
    waited and polled, and has ended on a done operation or on a throw. *)
Lemma pollLoop_inv (op : Operation) (tr tr' : Trace)
    (c : Completion Operation) :
  run env (pollLoop ai op) tr ≈ Ret (tr', c) ->
  (exists ops, tr' = tr ++ poll_trace ai ops) /\ ends_loop c.
Proof.
  intros Hrun.
  assert (Hleaf : Leaf (tr', c) (run env (pollLoop ai op) tr))
    by (rewrite Hrun; apply Leaf_Ret).
  unfold run, pollLoop in Hleaf.
  apply (Leaf_interp_state_iter_inv (handle env) (poll_body ai)
           (fun s => exists ops, s = tr ++ poll_trace ai ops)
           (fun _ => True) ends_loop tr op) in Hleaf.
  - exact Hleaf.
  - intros s i (ops & ->) _ sx Hsx.
    fold (run env (poll_body ai i) (tr ++ poll_trace ai ops)) in Hsx.
    unfold poll_body in Hsx.
    destruct (is_done i) eqn:Hdone; cbn [negb] in Hsx.
    + rewrite run_ret in Hsx. apply Leaf_Ret_inv in Hsx. subst sx.
      split; [exists ops; reflexivity | exact Hdone].
    + rewrite run_trigger_bind in Hsx. unfold await in Hsx.
      rewrite run_trigger_bind in Hsx.
      assert (Htr : exists ops',
                ((tr ++ poll_trace ai ops) ++ [ev (SetTimeout poll_interval)])
                ++ [ev (GetVideosOperation ai i)] = tr ++ poll_trace ai ops').
      { exists (ops ++ [i]). unfold poll_trace. rewrite flat_map_app.
        rewrite <- !app_assoc. reflexivity. }
      destruct (respond env (GetVideosOperation ai i) _);
        rewrite run_ret in Hsx; apply Leaf_Ret_inv in Hsx; subst sx;
        (split; [exact Htr | exact I]).
  - exists []. cbn. rewrite app_nil_r. reflexivity.
  - exact I.
Qed.

Section Stub.

(** A poll stub: not done for the first [N] calls, then [last]. *)
Variable N : nat.
Variable last : Completion Operation.

Hypothesis pending_first :
  forall tr op, (count_polls tr < N)%nat ->
    exists op', respond env (GetVideosOperation ai op) tr = Normal op' /\
                is_done op' = false.
Hypothesis then_last :
  forall tr op, count_polls tr = N ->
    respond env (GetVideosOperation ai op) tr = last.
Hypothesis last_ends : ends_loop last.

(** From a history with [N - n] polls, the loop polls [n + 1] times more
    and leaves with [last]. *)
Lemma pollLoop_stub (n : nat) :
  forall (tr : Trace) (op : Operation),
    (count_polls tr + n)%nat = N ->
    is_done op = false ->
    exists ops,
      List.length ops = S n /\ hd_error ops = Some op /\
      run env (pollLoop ai op) tr ≈ Ret (tr ++ poll_trace ai ops, last).
Proof.
  induction n as [|n IH]; intros tr op Hcount Hpending.
  - exists [op]. split; [reflexivity|]. split; [reflexivity|].
    rewrite (pollLoop_pending op tr Hpending).
    rewrite then_last
      by (rewrite count_polls_app; cbn; rewrite <- Hcount; lia).
    destruct last as [final|e]; [|reflexivity].
    apply pollLoop_done. exact last_ends.
  - destruct (pending_first (tr ++ [ev (SetTimeout poll_interval)]) op)
      as (op' & Hanswer & Hpending').
    { rewrite count_polls_app. cbn. lia. }
    destruct (IH (tr ++ poll_trace ai [op]) op') as (ops & Hlen & Hhd & Hrun).
    { rewrite count_polls_app, count_polls_poll_trace. cbn. lia. }
    { exact Hpending'. }
    exists (op :: ops). split; [cbn; lia|]. split; [reflexivity|].
    rewrite (pollLoop_pending op tr Hpending), Hanswer, Hrun.
    rewrite (poll_trace_cons ai op ops), app_assoc. reflexivity.
Qed.

End Stub.

End Polling.

Arguments pollLoop_inv env ai {op tr tr' c} _.

(* ===================================================================== *)
(** ** [generateVideo] *)
(* ===================================================================== *)

Section VideoGeneration.

Variable env : Env.

(** The payload block reads the image, if there is one, and nothing
    else. *)
Lemma image_payload_run (imageFile : option File) (tr : Trace) :
  run env (image_payload imageFile) tr
  ≈ Ret match imageFile with
        | None => (tr, Normal None)
        | Some f =>
            (tr ++ [ev (FileToBase64 f)],
             match respond env (FileToBase64 f) tr with
             | Normal base64Image =>
                 Normal (Some (mkInline base64Image (file_type f)))
             | Throw e => Throw e
             end)
        end.
Proof.
  destruct imageFile as [f|]; cbn [image_payload]; [|apply run_ret].
  run_step. destruct (respond env (FileToBase64 f) tr); [|reflexivity].
  apply run_ret.
Qed.

(** Before the first provider call nothing is polled, fetched or handed
    out. *)
Lemma video_setup_trace (imageFile : option File) (tr : Trace)
    (c : Completion (GoogleGenAI * option InlineData)) :
  run env (video_setup imageFile) [] ≈ Ret (tr, c) ->
  count_polls tr = 0%nat /\ deliveries tr = [].
Proof.
  intros Hrun. unfold video_setup in Hrun.
  pose proof (getAi_run env []) as Hai. cbv zeta in Hai.
  destruct (respond env (NewGoogleGenAI _) _) as [ai|e].
  - rewrite (run_bindC_normal _ Hai) in Hrun.
    pose proof (image_payload_run imageFile
                  ([] ++ [ev EnvApiKey;
                          ev (NewGoogleGenAI (respond env EnvApiKey []))]))
      as Hpay.
    destruct imageFile as [f|].
    + destruct (respond env (FileToBase64 f) _).
      * rewrite (run_bindC_normal _ Hpay), run_ret in Hrun.
        apply eutt_inv_Ret in Hrun. injection Hrun as <- _.
        split; reflexivity.
      * rewrite (run_bindC_throw _ Hpay) in Hrun.
        apply eutt_inv_Ret in Hrun. injection Hrun as <- _.
        split; reflexivity.
    + rewrite (run_bindC_normal _ Hpay), run_ret in Hrun.
      apply eutt_inv_Ret in Hrun. injection Hrun as <- _.
      split; reflexivity.
  - rewrite (run_bindC_throw _ Hai) in Hrun.
    apply eutt_inv_Ret in Hrun. injection Hrun as <- _.
    split; reflexivity.
Qed.

(** The setup without an image, on a client that can be built. *)
Lemma video_setup_no_image (ai : GoogleGenAI) :
  respond env (NewGoogleGenAI (respond env EnvApiKey [])) [ev EnvApiKey]
  = Normal ai ->
  run env (video_setup None) []
  ≈ Ret ([ev EnvApiKey; ev (NewGoogleGenAI (respond env EnvApiKey []))],
         Normal (ai, None)).
Proof.
  intros Hnew. unfold video_setup.
  pose proof (getAi_run env []) as Hai. cbv zeta in Hai.
  change ([] ++ [ev EnvApiKey]) with [ev EnvApiKey] in Hai.
  rewrite Hnew in Hai. rewrite (run_bindC_normal _ Hai).
  cbn [image_payload]. run_step. apply run_ret.
Qed.

(** [generateVideo] up to the end of its loop. *)
Lemma generateVideo_run (prompt : jsstring) (imageFile : option File)
    (aspectRatio : VideoAspectRatio) (tr_a : Trace) (ai : GoogleGenAI)
    (imagePayload : option InlineData) :
  run env (video_setup imageFile) [] ≈ Ret (tr_a, Normal (ai, imagePayload)) ->
  let first := GenerateVideos ai
                 (video_parameters prompt imagePayload aspectRatio) in
  (forall e,
      respond env first tr_a = Throw e ->
      run env (generateVideo prompt imageFile aspectRatio) []
      ≈ Ret (tr_a ++ [ev first], Throw e)) /\
  (forall op0 tr_p,
      respond env first tr_a = Normal op0 ->
      (forall e,
          run env (pollLoop ai op0) (tr_a ++ [ev first])
          ≈ Ret (tr_p, Throw e) ->
          run env (generateVideo prompt imageFile aspectRatio) []
          ≈ Ret (tr_p, Throw e)) /\
      (forall operation,
          run env (pollLoop ai op0) (tr_a ++ [ev first])
          ≈ Ret (tr_p, Normal operation) ->
          run env (generateVideo prompt imageFile aspectRatio) []
          ≈ run env (deliver_video operation) tr_p)).
Proof.
  intros Hset first. unfold generateVideo. split.
  - intros e Hfirst. rewrite (run_bindC_normal _ Hset). cbn [fst snd].
    fold first. run_step. rewrite Hfirst. reflexivity.
  - intros op0 tr_p Hfirst. split.
    + intros e Hloop. rewrite (run_bindC_normal _ Hset). cbn [fst snd].
      fold first. run_step. rewrite Hfirst.
      apply (run_bindC_throw _ Hloop).
    + intros operation Hloop. rewrite (run_bindC_normal _ Hset).
      cbn [fst snd]. fold first. run_step. rewrite Hfirst.
      apply (run_bindC_normal _ Hloop).
Qed.

End VideoGeneration.

Arguments video_setup_trace env {imageFile tr c} _.
Arguments generateVideo_run env prompt {imageFile} aspectRatio
  {tr_a ai imagePayload} _.

(** C3.  With a poll stub that answers not done [N] times and then
    [final], done: if the initial operation is done the loop returns it at
    once, no wait and no poll; if it is not, the loop adds exactly [N + 1]
    pairs of a [poll_interval] wait and a poll to the trace, the first
    poll on the initial operation, and [generateVideo] goes on with
    [final]. *)
Theorem poll_until_done (env : Env) (prompt : jsstring)
    (imageFile : option File) (aspectRatio : VideoAspectRatio)
    (tr_a : Trace) (ai : GoogleGenAI) (imagePayload : option InlineData)
    (op0 final : Operation) (N : nat) :
  run env (video_setup imageFile) [] ≈ Ret (tr_a, Normal (ai, imagePayload)) ->
  let first := GenerateVideos ai
                 (video_parameters prompt imagePayload aspectRatio) in
  let tr0 := tr_a ++ [ev first] in
  respond env first tr_a = Normal op0 ->
  (forall tr op, (count_polls tr < N)%nat ->
     exists op', respond env (GetVideosOperation ai op) tr = Normal op' /\
                 is_done op' = false) ->
  (forall tr op, count_polls tr = N ->
     respond env (GetVideosOperation ai op) tr = Normal final) ->
  is_done final = true ->
  (is_done op0 = true ->
     run env (pollLoop ai op0) tr0 ≈ Ret (tr0, Normal op0) /\
     run env (generateVideo prompt imageFile aspectRatio) []
     ≈ run env (deliver_video op0) tr0) /\
  (is_done op0 = false ->
     exists ops,
       List.length ops = (N + 1)%nat /\ hd_error ops = Some op0 /\
       count_polls (tr0 ++ poll_trace ai ops) = (N + 1)%nat /\
       run env (pollLoop ai op0) tr0
       ≈ Ret (tr0 ++ poll_trace ai ops, Normal final) /\
       run env (generateVideo prompt imageFile aspectRatio) []
       ≈ run env (deliver_video final) (tr0 ++ poll_trace ai ops)).
Proof.
  intros Hset first tr0 Hfirst Hpending Hlast Hfinal.
  destruct (generateVideo_run env prompt aspectRatio Hset) as [_ Hgen].
  destruct (video_setup_trace env Hset) as [Hcount _].
  assert (Hcount0 : count_polls tr0 = 0%nat)
    by (unfold tr0; rewrite count_polls_app, Hcount; reflexivity).
  split.
  - intros Hdone. pose proof (pollLoop_done env ai op0 tr0 Hdone) as Hloop.
    split; [exact Hloop|].
    apply (Hgen op0 tr0 Hfirst). exact Hloop.
  - intros Hnot.
    destruct (pollLoop_stub env ai N (Normal final) Hpending Hlast Hfinal N
                tr0 op0) as (ops & Hlen & Hhd & Hloop).
    { rewrite Hcount0. reflexivity. }
    { exact Hnot. }
    exists ops. split; [lia|]. split; [exact Hhd|].
    split; [rewrite count_polls_app, count_polls_poll_trace; lia|].
    split; [exact Hloop|].
    apply (Hgen op0 _ Hfirst). exact Hloop.
Qed.

Lemma poll_until_done_witness :
  let tr0 := [ev EnvApiKey; ev (NewGoogleGenAI the_key);
              ev (GenerateVideos client
                    (video_parameters (js "a cat") None Ratio_16_9))] in
  exists ops,
    List.length ops = 3%nat /\ hd_error ops = Some pending_op /\
    count_polls (tr0 ++ poll_trace client ops) = 3%nat /\
    run (scripted slow_video) (pollLoop client pending_op) tr0
    ≈ Ret (tr0 ++ poll_trace client ops, Normal finished_op) /\
    run (scripted slow_video) (generateVideo (js "a cat") None Ratio_16_9) []
    ≈ run (scripted slow_video) (deliver_video finished_op)
          (tr0 ++ poll_trace client ops).
Proof.
  refine (proj2 (poll_until_done (scripted slow_video) (js "a cat") None
                   Ratio_16_9 [ev EnvApiKey; ev (NewGoogleGenAI the_key)]
                   client None pending_op finished_op 2
                   _ _ _ _ _) _).
  - apply (video_setup_no_image (scripted slow_video) client). reflexivity.
  - reflexivity.
  - intros tr op Hlt. exists pending_op. split; [|reflexivity].
    cbn. destruct (count_polls tr) as [|[|n]]; [reflexivity|reflexivity|lia].
  - intros tr op Heq. cbn. rewrite Heq. reflexivity.
  - reflexivity.
  - reflexivity.
Defined.

(** C9.  When the loop returns an operation without a usable link, the
    run ends there with ['Video generation failed.']: the trace is the
    trace at the end of polling, and it holds no fetch of video bytes and
    no blob URL. *)
Theorem no_link_no_video (env : Env) (prompt : jsstring)
    (imageFile : option File) (aspectRatio : VideoAspectRatio)
    (tr_a tr_p : Trace) (ai : GoogleGenAI) (imagePayload : option InlineData)
    (op0 operation : Operation) :
  run env (video_setup imageFile) [] ≈ Ret (tr_a, Normal (ai, imagePayload)) ->
  let first := GenerateVideos ai
                 (video_parameters prompt imagePayload aspectRatio) in
  respond env first tr_a = Normal op0 ->
  run env (pollLoop ai op0) (tr_a ++ [ev first])
  ≈ Ret (tr_p, Normal operation) ->
  has_link (downloadLink operation) = false ->
  is_done operation = true /\
  run env (generateVideo prompt imageFile aspectRatio) []
  ≈ Ret (tr_p, Throw (Error (js "Video generation failed."))) /\
  deliveries tr_p = [].
Proof.
  intros Hset first Hfirst Hloop Hlink.
  destruct (pollLoop_inv env ai Hloop) as [(ops & ->) Hdone].
  split; [exact Hdone|]. split.
  - destruct (generateVideo_run env prompt aspectRatio Hset) as [_ Hgen].
    rewrite (proj2 (Hgen op0 _ Hfirst) operation Hloop).
    unfold deliver_video. rewrite Hlink. apply run_ret.
  - destruct (video_setup_trace env Hset) as [_ Hd].
    rewrite !deliveries_app, Hd, deliveries_poll_trace. reflexivity.
Qed.

Lemma no_link_no_video_witness :
  let tr := [ev EnvApiKey; ev (NewGoogleGenAI the_key);
             ev (GenerateVideos client
                   (video_parameters (js "a cat") None Ratio_9_16))] in
  is_done failed_op = true /\
  run (scripted all_well) (generateVideo (js "a cat") None Ratio_9_16) []
  ≈ Ret (tr, Throw (Error (js "Video generation failed."))) /\
  deliveries tr = [].
Proof.
  apply (no_link_no_video (scripted all_well) (js "a cat") None Ratio_9_16
           [ev EnvApiKey; ev (NewGoogleGenAI the_key)] _ client None
           failed_op failed_op).
  - apply (video_setup_no_image (scripted all_well) client). reflexivity.
  - reflexivity.
  - apply pollLoop_done. reflexivity.
  - reflexivity.
Defined.



(* ===================================================================== *)
(** ** [editImage] *)
(* ===================================================================== *)

(** The scan stops at the first part that carries inline data. *)
Lemma scan_parts_first (before after : list Part) (part : Part)
    (d : InlineData) :
  (forall p, In p before -> inlineData p = None) ->
  inlineData part = Some d ->
  scan_parts (before ++ part :: after) = Normal (data_uri d).
Proof.
  induction before as [|p before IH]; intros Hnone Hpart;
    cbn [app scan_parts].
  - rewrite Hpart. reflexivity.
  - rewrite (Hnone p (or_introl eq_refl)).
    apply IH; [|exact Hpart]. intros q Hq. apply Hnone. right. exact Hq.
Qed.

(** With no such part the scan runs off the end of the list. *)
Lemma scan_parts_none (ps : list Part) :
  (forall p, In p ps -> inlineData p = None) ->
  scan_parts ps = Throw (Error (js "Image editing failed.")).
Proof.
  induction ps as [|p ps IH]; intros Hnone; cbn [scan_parts].
  - reflexivity.
  - rewrite (Hnone p (or_introl eq_refl)).
    apply IH. intros q Hq. apply Hnone. right. exact Hq.
Qed.

(** [editImage] once the client is built and the image is read. *)
Lemma editImage_run (env : Env) (imageFile : File) (prompt : jsstring)
    (tr_ai : Trace) (ai : GoogleGenAI) (base64Image : jsstring) :
  run env getAi [] ≈ Ret (tr_ai, Normal ai) ->
  respond env (FileToBase64 imageFile) tr_ai = Normal base64Image ->
  let rq := GenerateContent ai (edit_request imageFile base64Image prompt) in
  run env (editImage imageFile prompt) []
  ≈ Ret (tr_ai ++ [ev (FileToBase64 imageFile); ev rq],
         match respond env rq (tr_ai ++ [ev (FileToBase64 imageFile)]) with
         | Throw e => Throw e
         | Normal answer =>
           match first_candidate_parts answer with
           | Throw e => Throw e
           | Normal ps => scan_parts ps
           end
         end).
Proof.
  intros Hai Hread rq. unfold editImage.
  rewrite (run_bindC_normal _ Hai).
  run_step. rewrite Hread. run_step. fold rq. rewrite <- app_assoc.
  destruct (respond env rq _) as [answer|e]; [|reflexivity].
  run_step. destruct (first_candidate_parts answer); [|reflexivity].
  apply run_ret.
Qed.

(** On an answer that carries a parts list.  A provider call that throws
    gives that error.  A provider call that returns with a list of parts
    gives the data URI of the first part that carries inline data, built
    from its [mimeType] and [data]; and if no part does, the error
    ['Image editing failed.'], which [editImage] raises itself after the
    call has returned. *)
Theorem edit_image_first_inline_part (env : Env) (imageFile : File)
    (prompt base64Image : jsstring) (tr_ai : Trace) (ai : GoogleGenAI) :
  run env getAi [] ≈ Ret (tr_ai, Normal ai) ->
  respond env (FileToBase64 imageFile) tr_ai = Normal base64Image ->
  let rq := GenerateContent ai (edit_request imageFile base64Image prompt) in
  let before_call := tr_ai ++ [ev (FileToBase64 imageFile)] in
  let tr := tr_ai ++ [ev (FileToBase64 imageFile); ev rq] in
  (forall e,
      respond env rq before_call = Throw e ->
      run env (editImage imageFile prompt) [] ≈ Ret (tr, Throw e)) /\
  (forall answer ps,
      respond env rq before_call = Normal answer ->
      first_candidate_parts answer = Normal ps ->
      (forall before part d after,
          ps = before ++ part :: after ->
          (forall p, In p before -> inlineData p = None) ->
          inlineData part = Some d ->
          run env (editImage imageFile prompt) []
          ≈ Ret (tr, Normal (js "data:" ++ mimeType d
                             ++ js ";base64," ++ data d))) /\
      ((forall p, In p ps -> inlineData p = None) ->
       run env (editImage imageFile prompt) []
       ≈ Ret (tr, Throw (Error (js "Image editing failed."))))).
Proof.
  intros Hai Hread rq before_call tr.
  pose proof (editImage_run env imageFile prompt _ _ _ Hai Hread) as Hrun.
  cbv zeta in Hrun. fold rq before_call tr in Hrun. split.
  - intros e Hthrow. rewrite Hrun, Hthrow. reflexivity.
  - intros answer ps Hanswer Hparts. rewrite Hanswer, Hparts in Hrun. split.
    + intros before part d after -> Hnone Hpart.
      rewrite Hrun, (scan_parts_first before after part d Hnone Hpart).
      reflexivity.
    + intros Hnone. rewrite Hrun, (scan_parts_none ps Hnone). reflexivity.
Qed.

Lemma edit_image_first_inline_part_witness :
  exists tr,
    run (scripted image_edited) (editImage photo (js "Make the sky pink")) []
    ≈ Ret (tr, Normal (js "data:image/png;base64,iVBORw0KGgo=")).
Proof.
  eexists.
  refine (proj1 (proj2 (edit_image_first_inline_part (scripted image_edited)
                          photo (js "Make the sky pink") (js "AAAB")
                          [ev EnvApiKey; ev (NewGoogleGenAI the_key)] client
                          (getAi_run (scripted image_edited) []) eq_refl)
                       edit_answer _ eq_refl eq_refl)
                [TextPart (js "Here is your image.")] (InlinePart edited)
                edited
                [InlinePart (mkInline (js "AAAA") (js "image/jpeg"))]
                eq_refl _ eq_refl).
  intros p [<-|[]]. reflexivity.
Defined.

(** An answer that carries no parts list makes the unguarded read throw
    a [TypeError], whichever level is missing. *)
Lemma first_candidate_parts_missing (r : GenerateContentResponse) :
  answer_parts r = None ->
  exists msg, first_candidate_parts r = Throw (TypeError msg).
Proof.
  unfold answer_parts, first_candidate_parts.
  destruct (candidates r) as [[|c cs]|]; try (eexists; reflexivity).
  destruct (content c) as [ct|]; [|eexists; reflexivity].
  destruct (parts ct) as [ps|]; [discriminate | eexists; reflexivity].
Qed.

(** C6, as the code behaves.  An answer without a parts list (no
    candidates, an empty list of them, a first candidate without content,
    or content without parts) carries no part with inline data; yet
    [editImage] does not end with its own ['Image editing failed.']: the
    read of [response.candidates[0].content.parts] has no [?.], it throws
    before the scan starts, and the caller gets the runtime's
    [TypeError]. *)
Theorem edit_image_answer_without_parts (env : Env) (imageFile : File)
    (prompt base64Image : jsstring) (tr_ai : Trace) (ai : GoogleGenAI)
    (answer : GenerateContentResponse) :
  run env getAi [] ≈ Ret (tr_ai, Normal ai) ->
  respond env (FileToBase64 imageFile) tr_ai = Normal base64Image ->
  let rq := GenerateContent ai (edit_request imageFile base64Image prompt) in
  respond env rq (tr_ai ++ [ev (FileToBase64 imageFile)]) = Normal answer ->
  answer_parts answer = None ->
  exists e,
    run env (editImage imageFile prompt) []
    ≈ Ret (tr_ai ++ [ev (FileToBase64 imageFile); ev rq], Throw e) /\
    thrown_name e = js "TypeError" /\
    e <> Error (js "Image editing failed.").
Proof.
  intros Hai Hread rq Hanswer Hnone.
  destruct (first_candidate_parts_missing answer Hnone) as (msg & Hthrow).
  exists (TypeError msg). split; [|split].
  - pose proof (editImage_run env imageFile prompt _ _ _ Hai Hread) as Hrun.
    cbv zeta in Hrun. fold rq in Hrun.
    rewrite Hanswer, Hthrow in Hrun. exact Hrun.
  - reflexivity.
  - intros Heq. apply (f_equal thrown_name) in Heq.
    vm_compute in Heq. discriminate Heq.
Qed.

Lemma edit_image_answer_without_parts_witness :
  exists e,
    run (scripted prompt_refused) (editImage photo (js "Make the sky pink")) []
    ≈ Ret ([ev EnvApiKey; ev (NewGoogleGenAI the_key);
            ev (FileToBase64 photo);
            ev (GenerateContent client
                  (edit_request photo (js "AAAB") (js "Make the sky pink")))],
           Throw e) /\
    thrown_name e = js "TypeError" /\
    e <> Error (js "Image editing failed.").
Proof.
  apply (edit_image_answer_without_parts (scripted prompt_refused) photo
           (js "Make the sky pink") (js "AAAB")
           [ev EnvApiKey; ev (NewGoogleGenAI the_key)] client refused_answer
           (getAi_run (scripted prompt_refused) [])); reflexivity.
Defined.

(** An answer whose list of candidates is empty never reaches the scan:
    whatever the file and the prompt, the read of the first candidate's
    content throws a [TypeError], and that is how the run ends, right
    after the provider call. *)
Theorem edit_image_without_candidates (env : Env) (imageFile : File)
    (prompt base64Image : jsstring) (tr_ai : Trace) (ai : GoogleGenAI)
    (answer : GenerateContentResponse) :
  run env getAi [] ≈ Ret (tr_ai, Normal ai) ->
  respond env (FileToBase64 imageFile) tr_ai = Normal base64Image ->
  let rq := GenerateContent ai (edit_request imageFile base64Image prompt) in
  respond env rq (tr_ai ++ [ev (FileToBase64 imageFile)]) = Normal answer ->
  candidates answer = Some [] ->
  run env (editImage imageFile prompt) []
  ≈ Ret (tr_ai ++ [ev (FileToBase64 imageFile); ev rq],
         Throw (TypeError
                  (js "Cannot read properties of undefined (reading 'content')"))).
Proof.
  intros Hai Hread rq Hanswer Hempty.
  pose proof (editImage_run env imageFile prompt _ _ _ Hai Hread) as Hrun.
  cbv zeta in Hrun. fold rq in Hrun. rewrite Hanswer in Hrun.
  unfold first_candidate_parts in Hrun. rewrite Hempty in Hrun. exact Hrun.
Qed.

Lemma edit_image_without_candidates_witness :
  run (scripted prompt_blocked) (editImage photo (js "Make the sky pink")) []
  ≈ Ret ([ev EnvApiKey; ev (NewGoogleGenAI the_key);
          ev (FileToBase64 photo);
          ev (GenerateContent client
                (edit_request photo (js "AAAB") (js "Make the sky pink")))],
         Throw (TypeError
                  (js "Cannot read properties of undefined (reading 'content')"))).
Proof.
  apply (edit_image_without_candidates (scripted prompt_blocked) photo
           (js "Make the sky pink") (js "AAAB")
           [ev EnvApiKey; ev (NewGoogleGenAI the_key)] client blocked_answer
           (getAi_run (scripted prompt_blocked) [])); reflexivity.
Defined.

(* ===================================================================== *)
(** ** The chat panel *)
(* ===================================================================== *)

(** [createChat(history)] on a client that can be built: a session on
    ['gemini-2.5-flash'] that starts from [history]. *)
Lemma createChat_run (env : Env) (history : list Content) (tr tr' : Trace)
    (ai : GoogleGenAI) :
  run env getAi tr ≈ Ret (tr', Normal ai) ->
  run env (createChat history) tr
  ≈ Ret (tr', Normal (mkChat ai (js "gemini-2.5-flash") history)).
Proof.
  intros Hai. unfold createChat. rewrite (run_bindC_normal _ Hai).
  apply run_ret.
Qed.

Module ChatFacts.
Import ChatPanel.

(** [trim] leaves nothing of a string of blanks. *)
Lemma trim_start_blank (s : jsstring) :
  Forall (fun c => is_js_space c = true) s -> trim_start s = [].
Proof.
  induction 1 as [|c s Hc _ IH]; cbn [trim_start]; [reflexivity|].
  rewrite Hc. exact IH.
Qed.

Lemma trim_blank (s : jsstring) :
  Forall (fun c => is_js_space c = true) s -> trim s = [].
Proof.
  intros Hblank. unfold trim. rewrite (trim_start_blank s Hblank).
  reflexivity.
Qed.

(** C10.  [handleSend] on an input that is empty or all white space, or
    before the chat session exists, returns at its guard: the state is the
    state it was called in, message history and wire log included, so no
    message went to the provider. *)
Theorem blank_input_sends_nothing (s : State) :
  Forall (fun c => is_js_space c = true) (currentInput s) \/
  chatRef s = None ->
  handleSend s = s /\
  messages (handleSend s) = messages s /\
  wire (handleSend s) = wire s.
Proof.
  intros Hguard.
  assert (Hsame : handleSend s = s).
  { unfold handleSend. destruct (chatRef s) as [chat|]; [|reflexivity].
    destruct Hguard as [Hblank|Hnone]; [|discriminate Hnone].
    rewrite (trim_blank _ Hblank). reflexivity. }
  rewrite Hsame. auto.
Qed.

Lemma blank_input_sends_nothing_witness :
  let chat := mkChat client (js "gemini-2.5-flash") [] in
  let s := mkState [] (js "  ") false [] (Some chat) [] [] in
  handleSend s = s /\
  messages (handleSend s) = messages s /\
  wire (handleSend s) = wire s.
Proof.
  apply (blank_input_sends_nothing
           (mkState [] (js "  ") false []
                    (Some (mkChat client (js "gemini-2.5-flash") [])) [] [])).
  left. repeat constructor.
Defined.

(** *** One call at a time *)

Lemma one_at_a_time_app (open : bool) (w w' : list Wire) :
  one_at_a_time open (w ++ w')
  = one_at_a_time open w && one_at_a_time (open_after open w) w'.
Proof.
  revert open. induction w as [|x w IH]; intros open; [reflexivity|].
  destruct x; cbn [app one_at_a_time]; rewrite IH;
    [rewrite andb_assoc|rewrite andb_assoc]; reflexivity.
Qed.

Lemma open_after_app (open : bool) (w w' : list Wire) :
  open_after open (w ++ w') = open_after (open_after open w) w'.
Proof. unfold open_after. apply fold_left_app. Qed.

Lemma handleSend_in_step (s : State) :
  loading s = false -> in_step s -> in_step (handleSend s).
Proof.
  intros Hidle (Hlog & Hopen & Hawait). unfold handleSend.
  destruct (chatRef s); [|repeat split; assumption].
  destruct (negb (truthy (trim (currentInput s))));
    [repeat split; assumption|].
  rewrite Hidle in *. unfold in_step. cbn [wire loading awaited].
  rewrite one_at_a_time_app, open_after_app, Hlog, Hopen, length_app, Hawait.
  repeat split.
Qed.

Lemma dispatch_in_step (t : jsstring -> jsstring) (s : State) (e : Event) :
  in_step s -> in_step (dispatch t s e).
Proof.
  intros Hin. destruct e as [[chat|e]|value|key| |c]; cbn [dispatch].
  - exact Hin.
  - exact Hin.
  - destruct (loading s) eqn:Hload; [exact Hin|].
    unfold in_step in *. cbn [wire loading awaited]. rewrite Hload in Hin.
    exact Hin.
  - destruct (loading s) eqn:Hload; [exact Hin|].
    destruct (jsstring_eqb key (js "Enter") && negb false); [|exact Hin].
    apply handleSend_in_step; assumption.
  - unfold button_disabled. destruct (loading s) eqn:Hload; [exact Hin|].
    cbn [orb]. destruct (negb (truthy (trim (currentInput s)))); [exact Hin|].
    apply handleSend_in_step; assumption.
  - destruct Hin as (Hlog & Hopen & Hawait).
    destruct (awaited s) as [|p rest] eqn:Hawaited;
      [repeat split; try assumption; rewrite Hawaited; exact Hawait|].
    destruct (loading s) eqn:Hload; [|discriminate Hawait].
    destruct rest; [|discriminate Hawait].
    unfold in_step.
    destruct c; cbn [handleSend_resume wire loading awaited];
      rewrite one_at_a_time_app, open_after_app, Hlog, Hopen;
      repeat split.
Qed.

Lemma play_in_step (t : jsstring -> jsstring) (es : list Event) :
  forall s, in_step s -> in_step (play t s es).
Proof.
  induction es as [|e es IH]; intros s Hin; [exact Hin|].
  cbn [play fold_left]. apply IH, dispatch_in_step, Hin.
Qed.

(** Whatever the user does, no message goes out while a call is open. *)
Lemma never_two_calls (t : jsstring -> jsstring) (es : list Event) :
  one_at_a_time false (wire (play t initial es)) = true.
Proof.
  apply (play_in_step t es initial). repeat split.
Qed.

(** One full turn from an idle panel: the input is typed and submitted,
    and the call settles with the model's answer. *)
Lemma one_turn (t : jsstring -> jsstring) (s : State) (chat : Chat)
    (m : jsstring) (r : GenerateContentResponse) (send : Event) :
  loading s = false -> chatRef s = Some chat -> awaited s = [] ->
  truthy (trim m) = true -> submits send ->
  play t s [Change m; send; Settle (Normal r)]
  = mkState (messages s ++ [mkMessage user [m]; mkMessage model [text r]])
            [] false [] (Some chat) [] (wire s ++ [Sent m; Settled]).
Proof.
  intros Hidle Hchat Hnone Hm Hsend.
  assert (Hsent : dispatch t (dispatch t s (Change m)) send
                  = mkState (messages s ++ [mkMessage user [m]]) [] true []
                            (Some chat) [m] (wire s ++ [Sent m])).
  { cbn [dispatch]. rewrite Hidle.
    destruct Hsend as [-> | ->]; cbn [dispatch loading];
      unfold button_disabled, handleSend;
      cbn [loading currentInput chatRef messages awaited wire orb];
      rewrite Hchat, Hm, Hnone; reflexivity. }
  cbn [play fold_left]. rewrite Hsent.
  cbn [dispatch awaited handleSend_resume messages currentInput loading error
       chatRef wire].
  rewrite <- !app_assoc. reflexivity.
Qed.

(** C8.  On a panel whose chat was created at mount, two messages that
    are not blank, each submitted (by click or by Enter) and answered
    before the next is typed, leave a history of four entries, user and
    model in turn, and a wire log in which the second message follows the
    settlement of the first.  And whatever sequence of events the panel
    receives, its wire log never has a message sent while an earlier call
    is open. *)
Theorem two_turns_alternate (t : jsstring -> jsstring) (chat : Chat)
    (m1 m2 : jsstring) (r1 r2 : GenerateContentResponse)
    (send1 send2 : Event) :
  truthy (trim m1) = true -> truthy (trim m2) = true ->
  submits send1 -> submits send2 ->
  let s := play t initial
             [Mount (Normal chat);
              Change m1; send1; Settle (Normal r1);
              Change m2; send2; Settle (Normal r2)] in
  messages s = [mkMessage user [m1]; mkMessage model [text r1];
                mkMessage user [m2]; mkMessage model [text r2]] /\
  List.length (messages s) = 4%nat /\
  alternates user (messages s) = true /\
  wire s = [Sent m1; Settled; Sent m2; Settled] /\
  (forall es, one_at_a_time false (wire (play t initial es)) = true).
Proof.
  intros Hm1 Hm2 Hsend1 Hsend2 s.
  assert (Hs : s = mkState [mkMessage user [m1]; mkMessage model [text r1];
                            mkMessage user [m2]; mkMessage model [text r2]]
                           [] false [] (Some chat) []
                           [Sent m1; Settled; Sent m2; Settled]).
  { subst s.
    change (play t initial
              [Mount (Normal chat);
               Change m1; send1; Settle (Normal r1);
               Change m2; send2; Settle (Normal r2)])
      with (play t
              (play t (dispatch t initial (Mount (Normal chat)))
                    [Change m1; send1; Settle (Normal r1)])
              [Change m2; send2; Settle (Normal r2)]).
    rewrite (one_turn t (dispatch t initial (Mount (Normal chat))) chat
               m1 r1 send1 eq_refl eq_refl eq_refl Hm1 Hsend1).
    rewrite (one_turn t _ chat m2 r2 send2)
      by (reflexivity || assumption).
    reflexivity. }
  rewrite Hs. cbn [messages wire].
  repeat split. apply never_two_calls.
Qed.

Lemma two_turns_alternate_witness :
  let chat := mkChat client (js "gemini-2.5-flash") [] in
  let hello := mkGCResponse (js "Hello!") None in
  let fine := mkGCResponse (js "Fine, thanks.") None in
  let s := play (fun key => key) initial
             [Mount (Normal chat);
              Change (js "hi"); Click; Settle (Normal hello);
              Change (js "how are you"); KeyPress (js "Enter");
              Settle (Normal fine)] in
  messages s = [mkMessage user [js "hi"]; mkMessage model [js "Hello!"];
                mkMessage user [js "how are you"];
                mkMessage model [js "Fine, thanks."]] /\
  List.length (messages s) = 4%nat /\
  alternates user (messages s) = true /\
  wire s = [Sent (js "hi"); Settled; Sent (js "how are you"); Settled] /\
  (forall es,
      one_at_a_time false (wire (play (fun key => key) initial es)) = true).
Proof.
  apply (two_turns_alternate (fun key => key)
           (mkChat client (js "gemini-2.5-flash") [])
           (js "hi") (js "how are you")
           (mkGCResponse (js "Hello!") None)
           (mkGCResponse (js "Fine, thanks.") None)
           Click (KeyPress (js "Enter")));
    try reflexivity; [left | right]; reflexivity.
Defined.

End ChatFacts.


(* ===================================================================== *)
(** * More of the service layer and of the panels *)
(* ===================================================================== *)

(** ** Runs that end, taken apart *)

(** A run of a sequence that ends has gone through its first part. *)
Lemma run_bind_inv (env : Env) A B (t : itree svcE A)
    (k : A -> itree svcE B) (tr : Trace) (x : Trace * B) :
  run env (ITree.bind t k) tr ≈ Ret x ->
  exists tr' a, run env t tr ≈ Ret (tr', a) /\ run env (k a) tr' ≈ Ret x.
Proof.
  unfold run. intros H. rewrite interp_state_bind in H.
  apply eutt_inv_bind_ret in H. destruct H as ([tr' a] & H1 & H2).
  exists tr', a. split; assumption.
Qed.

Lemma run_bindC_inv (env : Env) A B (t : svc A) (k : A -> svc B)
    (tr : Trace) (x : Trace * Completion B) :
  run env (bindC t k) tr ≈ Ret x ->
  exists tr' c,
    run env t tr ≈ Ret (tr', c) /\
    match c with
    | Normal a => run env (k a) tr' ≈ Ret x
    | Throw e => x = (tr', Throw e)
    end.
Proof.
  intros H. apply run_bind_inv in H. destruct H as (tr' & c & H1 & H2).
  exists tr', c. split; [exact H1|].
  destruct c; [exact H2|].
  rewrite run_ret in H2. apply eutt_inv_Ret in H2. symmetry. exact H2.
Qed.

(** ** [uploadFile] without a key *)

(** With [process.env.API_KEY] undefined or empty, an analysis task stops
    in [uploadFile] before anything is sent: the run is the notification
    and the read of the key, and the error is the one about the key. *)
Theorem analysis_without_key_sends_nothing (k : AnalysisKind) (env : Env)
    (f : File) (prompt : jsstring) :
  respond env (OnStateChange (js "uploading")) [] = Normal tt ->
  key_missing (respond env EnvApiKey [notify "uploading"]) = true ->
  run env (analyzeContent k f prompt) []
  ≈ Ret ([notify "uploading"; ev EnvApiKey],
         Throw (Error (js "API key not found for file upload."))) /\
  requests [notify "uploading"; ev EnvApiKey] = [].
Proof.
  intros Hobs Hkey. split; [|reflexivity].
  assert (Hup : run env (uploadFile f) [notify "uploading"]
                ≈ Ret ([notify "uploading"; ev EnvApiKey],
                       Throw (Error (js "API key not found for file upload.")))).
  { unfold uploadFile. run_step. rewrite Hkey. unfold throw. apply run_ret. }
  rewrite (analyzeContent_run env k f prompt Hup), Hobs. reflexivity.
Qed.

Lemma analysis_without_key_sends_nothing_witness :
  run (scripted no_key) (analyzeContent AudioAnalysis clip (js "Transcribe")) []
  ≈ Ret ([notify "uploading"; ev EnvApiKey],
         Throw (Error (js "API key not found for file upload."))) /\
  requests [notify "uploading"; ev EnvApiKey] = [].
Proof.
  apply (analysis_without_key_sends_nothing AudioAnalysis (scripted no_key)
           clip (js "Transcribe")); reflexivity.
Defined.

(** ** [generateVideo]: the download *)

(** Once the loop has ended on an operation that carries a link, after
    however many polls, [generateVideo] fetches the link with [&key=] and
    the key appended, and returns a blob URL for whatever body came back:
    the response's [ok] is never looked at, so an error page is delivered
    as the video. *)
Theorem video_download_ignores_status (env : Env) (prompt : jsstring)
    (imageFile : option File) (aspectRatio : VideoAspectRatio)
    (tr_a tr_p : Trace) (ai : GoogleGenAI) (imagePayload : option InlineData)
    (op0 operation : Operation) (link : jsstring) (resp : Response)
    (body : BlobObj) :
  run env (video_setup imageFile) [] ≈ Ret (tr_a, Normal (ai, imagePayload)) ->
  let first := GenerateVideos ai
                 (video_parameters prompt imagePayload aspectRatio) in
  respond env first tr_a = Normal op0 ->
  run env (pollLoop ai op0) (tr_a ++ [ev first])
  ≈ Ret (tr_p, Normal operation) ->
  downloadLink operation = Some link -> truthy link = true ->
  let apiKey := respond env EnvApiKey tr_p in
  let download := Fetch (mkRequest (js "GET")
                           (link ++ js "&key=" ++ render apiKey) NoBody) in
  respond env download (tr_p ++ [ev EnvApiKey]) = Normal resp ->
  blob_body resp = Normal body ->
  let tr := tr_p ++ [ev EnvApiKey; ev download] in
  run env (generateVideo prompt imageFile aspectRatio) []
  ≈ Ret (tr ++ [ev (CreateObjectURL body)],
         Normal (respond env (CreateObjectURL body) tr)).
Proof.
  intros Hset first Hfirst Hloop Hlink Htruthy apiKey download Hresp Hbody tr.
  destruct (generateVideo_run env prompt aspectRatio Hset) as [_ Hgen].
  rewrite (proj2 (Hgen op0 tr_p Hfirst) operation Hloop).
  unfold deliver_video, has_link. rewrite Hlink, Htruthy.
  run_step. fold apiKey. run_step.
  change (video_request (Some link) apiKey)
    with (mkRequest (js "GET") (link ++ js "&key=" ++ render apiKey) NoBody).
  fold download. rewrite Hresp. run_step. rewrite Hbody.
  run_step. run_step. subst tr. rewrite <- !app_assoc. reflexivity.
Qed.

Lemma video_download_ignores_status_witness :
  exists tr,
    ok forbidden = false /\
    count_polls tr = 3%nat /\
    run (scripted download_refused)
        (generateVideo (js "a cat") None Ratio_16_9) []
    ≈ Ret (tr, Normal (js "blob:1")).
Proof.
  set (tr0 := [ev EnvApiKey; ev (NewGoogleGenAI the_key);
               ev (GenerateVideos client
                     (video_parameters (js "a cat") None Ratio_16_9))]).
  set (tr_p := tr0 ++ poll_trace client [pending_op; pending_op; pending_op]).
  eexists. split; [reflexivity|]. split; cycle 1.
  - apply (video_download_ignores_status (scripted download_refused)
             (js "a cat") None Ratio_16_9
             [ev EnvApiKey; ev (NewGoogleGenAI the_key)] tr_p client None
             pending_op finished_op (js "https://video.example/1?alt=media")
             forbidden (mkBlob [123; 101; 125])); try reflexivity.
    + apply (video_setup_no_image (scripted download_refused) client).
      reflexivity.
    + change ([ev EnvApiKey; ev (NewGoogleGenAI the_key)] ++
              [ev (GenerateVideos client
                     (video_parameters (js "a cat") None Ratio_16_9))])
        with tr0.
      rewrite (pollLoop_pending (scripted download_refused) client pending_op
                 tr0 eq_refl).
      change (respond (scripted download_refused)
                (GetVideosOperation client pending_op)
                (tr0 ++ [ev (SetTimeout poll_interval)]))
        with (Normal (A := Operation) pending_op).
      cbv beta iota.
      rewrite (pollLoop_pending (scripted download_refused) client pending_op
                 _ eq_refl).
      change (respond (scripted download_refused)
                (GetVideosOperation client pending_op)
                ((tr0 ++ poll_trace client [pending_op])
                 ++ [ev (SetTimeout poll_interval)]))
        with (Normal (A := Operation) pending_op).
      cbv beta iota.
      rewrite (pollLoop_pending (scripted download_refused) client pending_op
                 _ eq_refl).
      change (respond (scripted download_refused)
                (GetVideosOperation client pending_op)
                (((tr0 ++ poll_trace client [pending_op])
                  ++ poll_trace client [pending_op])
                 ++ [ev (SetTimeout poll_interval)]))
        with (Normal (A := Operation) finished_op).
      cbv beta iota.
      rewrite (pollLoop_done (scripted download_refused) client finished_op
                 _ eq_refl).
      reflexivity.
  - reflexivity.
Defined.

(** ** [generateVideo]: a job that never finishes *)

(** The loop has no bound of its own: if the operation is not done and
    every poll answers with an operation that is not done, no run of
    [generateVideo] ever ends, with a result or with an error. *)
Theorem polling_has_no_bound (env : Env) (prompt : jsstring)
    (imageFile : option File) (aspectRatio : VideoAspectRatio)
    (tr_a : Trace) (ai : GoogleGenAI) (imagePayload : option InlineData)
    (op0 : Operation) :
  run env (video_setup imageFile) [] ≈ Ret (tr_a, Normal (ai, imagePayload)) ->
  respond env
    (GenerateVideos ai (video_parameters prompt imagePayload aspectRatio))
    tr_a = Normal op0 ->
  is_done op0 = false ->
  (forall tr op,
      exists op', respond env (GetVideosOperation ai op) tr = Normal op' /\
                  is_done op' = false) ->
  forall tr c,
    ~ run env (generateVideo prompt imageFile aspectRatio) [] ≈ Ret (tr, c).
Proof.
  intros Hset Hfirst Hnot Hpending tr c Hrun.
  unfold generateVideo in Hrun.
  rewrite (run_bindC_normal _ Hset) in Hrun. cbn [fst snd] in Hrun.
  rewrite run_await_bindC, Hfirst in Hrun.
  apply run_bindC_inv in Hrun. destruct Hrun as (tr' & c' & Hloop & _).
  assert (Hleaf : Leaf (tr', c') (run env (pollLoop ai op0)
            (tr_a ++ [ev (GenerateVideos ai
                            (video_parameters prompt imagePayload
                                              aspectRatio))])))
    by (rewrite Hloop; apply Leaf_Ret).
  unfold run, pollLoop in Hleaf.
  apply (Leaf_interp_state_iter_inv (handle env) (poll_body ai)
           (fun _ => True) (fun op => is_done op = false) (fun _ => False))
    in Hleaf.
  - destruct Hleaf as [_ Hfalse]. exact Hfalse.
  - intros s op _ Hop sx Hsx.
    fold (run env (poll_body ai op) s) in Hsx.
    unfold poll_body in Hsx. rewrite Hop in Hsx. cbn [negb] in Hsx.
    rewrite run_trigger_bind in Hsx. unfold await in Hsx.
    rewrite run_trigger_bind in Hsx.
    destruct (Hpending (s ++ [ev (SetTimeout poll_interval)]) op)
      as (op' & Hanswer & Hop').
    rewrite Hanswer, run_ret in Hsx. apply Leaf_Ret_inv in Hsx. subst sx.
    split; [exact I | exact Hop'].
  - exact I.
  - exact Hnot.
Qed.

Lemma polling_has_no_bound_witness :
  is_done pending_op = false /\
  forall tr c,
    ~ run (scripted never_done) (generateVideo (js "a cat") None Ratio_16_9) []
      ≈ Ret (tr, c).
Proof.
  split; [reflexivity|].
  apply (polling_has_no_bound (scripted never_done) (js "a cat") None
           Ratio_16_9 [ev EnvApiKey; ev (NewGoogleGenAI the_key)] client None
           pending_op).
  - apply (video_setup_no_image (scripted never_done) client). reflexivity.
  - reflexivity.
  - reflexivity.
  - intros tr op. exists pending_op. split; reflexivity.
Defined.

(* ===================================================================== *)
(** ** The chat panel: what the history records *)
(* ===================================================================== *)

Module ChatHistoryFacts.
Import ChatPanel.
Import ChatHistory.

Lemma user_texts_app (ms ms' : list ChatMessage) :
  user_texts (ms ++ ms') = user_texts ms ++ user_texts ms'.
Proof. unfold user_texts. rewrite filter_app, map_app. reflexivity. Qed.

Lemma sent_messages_app (w w' : list Wire) :
  sent_messages (w ++ w') = sent_messages w ++ sent_messages w'.
Proof. apply flat_map_app. Qed.

Lemma handleSend_recorded (s : State) : recorded s -> recorded (handleSend s).
Proof.
  intros Hrec. unfold handleSend. destruct (chatRef s); [|exact Hrec].
  destruct (negb (truthy (trim (currentInput s)))); [exact Hrec|].
  unfold recorded in *. cbn [messages wire].
  rewrite user_texts_app, sent_messages_app, map_app, Hrec. reflexivity.
Qed.

Lemma dispatch_recorded (t : jsstring -> jsstring) (s : State) (e : Event) :
  recorded s -> recorded (dispatch t s e).
Proof.
  intros Hrec. destruct e as [[chat|e]|value|key| |c]; cbn [dispatch].
  - exact Hrec.
  - exact Hrec.
  - destruct (loading s); exact Hrec.
  - destruct (loading s); [exact Hrec|].
    destruct (jsstring_eqb key (js "Enter") && negb false); [|exact Hrec].
    apply handleSend_recorded, Hrec.
  - destruct (button_disabled s); [exact Hrec|].
    apply handleSend_recorded, Hrec.
  - destruct (awaited s) as [|p rest]; [exact Hrec|].
    unfold recorded in *.
    destruct c; cbn [handleSend_resume messages wire];
      rewrite ?user_texts_app, sent_messages_app, map_app, Hrec;
      cbn [user_texts sent_messages flat_map filter is_user role List.map app];
      rewrite ?app_nil_r; reflexivity.
Qed.

(** Whatever the user and the provider do, the user entries of the
    history are exactly the messages that were handed to [sendMessage],
    one entry of one part for each, in the order they were sent: nothing
    is shown as said that was not sent, and nothing sent is missing. *)
Theorem history_records_what_was_sent (t : jsstring -> jsstring)
    (es : list Event) :
  user_texts (messages (play t initial es))
  = List.map (fun m => [m]) (sent_messages (wire (play t initial es))).
Proof.
  assert (Hall : forall s, recorded s -> recorded (play t s es)).
  { induction es as [|e es IH]; intros s Hrec; [exact Hrec|].
    cbn [play fold_left]. apply IH, dispatch_recorded, Hrec. }
  apply (Hall initial). reflexivity.
Qed.

Lemma handleSend_extends (s : State) :
  exists more, messages (handleSend s) = messages s ++ more.
Proof.
  unfold handleSend. destruct (chatRef s);
    [|exists []; symmetry; apply app_nil_r].
  destruct (negb (truthy (trim (currentInput s))));
    [exists []; symmetry; apply app_nil_r|].
  eexists. reflexivity.
Qed.

Lemma dispatch_extends (t : jsstring -> jsstring) (s : State) (e : Event) :
  exists more, messages (dispatch t s e) = messages s ++ more.
Proof.
  assert (Hsame : exists more, messages s = messages s ++ more)
    by (exists []; symmetry; apply app_nil_r).
  destruct e as [[chat|e]|value|key| |c]; cbn [dispatch].
  - exact Hsame.
  - exact Hsame.
  - destruct (loading s); exact Hsame.
  - destruct (loading s); [exact Hsame|].
    destruct (jsstring_eqb key (js "Enter") && negb false); [|exact Hsame].
    apply handleSend_extends.
  - destruct (button_disabled s); [exact Hsame|]. apply handleSend_extends.
  - destruct (awaited s) as [|p rest]; [exact Hsame|].
    destruct c; cbn [handleSend_resume messages];
      [eexists; reflexivity | exact Hsame].
Qed.

(** No event removes or rewrites an entry of the history: from any state,
    after any sequence of events, the history is the old one with entries
    appended. *)
Theorem history_only_grows (t : jsstring -> jsstring) (es : list Event)
    (s : State) :
  exists more, messages (play t s es) = messages s ++ more.
Proof.
  revert s. induction es as [|e es IH]; intros s.
  - exists []. symmetry. apply app_nil_r.
  - cbn [play fold_left]. destruct (IH (dispatch t s e)) as (more & Hmore).
    destruct (dispatch_extends t s e) as (first & Hfirst).
    exists (first ++ more). unfold play in Hmore.
    rewrite Hmore, Hfirst, app_assoc. reflexivity.
Qed.

(** Two user entries in a row break the alternation, whichever role the
    history is read from. *)
Lemma two_in_a_row (before after : list ChatMessage) (a b : list jsstring)
    (expect : Role) :
  alternates expect
    (before ++ mkMessage user a :: mkMessage user b :: after) = false.
Proof.
  revert expect. induction before as [|m before IH]; intros expect.
  - destruct expect; reflexivity.
  - cbn [app alternates]. destruct expect, (role m); auto.
Qed.

(** The input typed and the button clicked, on an idle panel. *)
Lemma typed_and_clicked (t : jsstring -> jsstring) (s : State) (chat : Chat)
    (m : jsstring) :
  loading s = false -> chatRef s = Some chat -> truthy (trim m) = true ->
  dispatch t (dispatch t s (Change m)) Click
  = mkState (messages s ++ [mkMessage user [m]]) [] true [] (Some chat)
            (awaited s ++ [m]) (wire s ++ [Sent m]).
Proof.
  intros Hidle Hchat Hm. cbn [dispatch]. rewrite Hidle.
  unfold button_disabled, handleSend.
  cbn [loading currentInput chatRef messages awaited wire orb].
  rewrite Hchat, Hm. reflexivity.
Qed.

(** A turn that fails leaves its user entry in the history without an
    answer, and the [catch] does not take it back; the next turn is
    appended after it.  So after a failed turn and a successful one the
    history holds the two user entries in a row and no longer alternates,
    while both messages went to the provider. *)
Theorem failed_turn_stays_in_history (t : jsstring -> jsstring) (s : State)
    (chat : Chat) (m1 m2 : jsstring) (e : Thrown)
    (r : GenerateContentResponse) :
  loading s = false -> chatRef s = Some chat -> awaited s = [] ->
  truthy (trim m1) = true -> truthy (trim m2) = true ->
  let s' := play t s [Change m1; Click; Settle (Throw e);
                      Change m2; Click; Settle (Normal r)] in
  messages s' = messages s ++ [mkMessage user [m1]; mkMessage user [m2];
                               mkMessage model [text r]] /\
  wire s' = wire s ++ [Sent m1; Settled; Sent m2; Settled] /\
  error s' = [] /\
  forall expect, alternates expect (messages s') = false.
Proof.
  intros Hidle Hchat Hnone Hm1 Hm2 s'.
  assert (Hs' : s' = mkState
                       (messages s ++ [mkMessage user [m1]; mkMessage user [m2];
                                       mkMessage model [text r]])
                       [] false [] (Some chat) []
                       (wire s ++ [Sent m1; Settled; Sent m2; Settled])).
  { subst s'. cbn [play fold_left].
    rewrite (typed_and_clicked t s chat m1 Hidle Hchat Hm1), Hnone.
    match goal with
    | |- context [dispatch t ?x (Settle (Throw e))] =>
        change (dispatch t x (Settle (Throw e)))
          with (mkState (messages s ++ [mkMessage user [m1]]) [] false
                        (t (js "error")) (Some chat) []
                        ((wire s ++ [Sent m1]) ++ [Settled]))
    end.
    rewrite (typed_and_clicked t _ chat m2);
      [|reflexivity|reflexivity|exact Hm2].
    cbn [dispatch awaited handleSend_resume messages currentInput loading
         error chatRef wire app].
    rewrite <- !app_assoc. reflexivity. }
  rewrite Hs'. cbn [messages wire error]. repeat split.
  intros expect. apply two_in_a_row.
Qed.

Lemma failed_turn_stays_in_history_witness :
  let chat := mkChat client (js "gemini-2.5-flash") [] in
  let s := mkState [] [] false [] (Some chat) [] [] in
  let s' := play (fun key => key) s
              [Change (js "Hello"); Click;
               Settle (Throw (Error (js "503")));
               Change (js "Hello?"); Click;
               Settle (Normal (mkGCResponse (js "Hi!") None))] in
  messages s' = messages s ++ [mkMessage user [js "Hello"];
                               mkMessage user [js "Hello?"];
                               mkMessage model [js "Hi!"]] /\
  wire s' = wire s ++ [Sent (js "Hello"); Settled;
                       Sent (js "Hello?"); Settled] /\
  error s' = [] /\
  forall expect, alternates expect (messages s') = false.
Proof.
  apply (failed_turn_stays_in_history (fun key => key)
           (mkState [] [] false []
                    (Some (mkChat client (js "gemini-2.5-flash") [])) [] [])
           (mkChat client (js "gemini-2.5-flash") [])
           (js "Hello") (js "Hello?") (Error (js "503"))
           (mkGCResponse (js "Hi!") None)); reflexivity.
Defined.

End ChatHistoryFacts.

(* ===================================================================== *)
(** ** Programs that end whatever they are answered *)
(* ===================================================================== *)

Section OutcomesFacts.

Context {E : Type -> Type}.

Lemma ends_with_eutt A (P : Log E -> A -> Prop) u (p q : itree E A) :
  p ≈ q -> ends_with P u p -> ends_with P u q.
Proof.
  intros Hpq Hp. destruct Hp as [u a p Hret HP | u T e k p Hask Hk].
  - apply (ends_ret P u a); [rewrite <- Hpq; exact Hret | exact HP].
  - apply (ends_ask P u T e k); [rewrite <- Hpq; exact Hask | exact Hk].
Qed.

Lemma ends_with_weaken A (P Q : Log E -> A -> Prop) u (p : itree E A) :
  (forall v a, P v a -> Q v a) -> ends_with P u p -> ends_with Q u p.
Proof.
  intros HPQ Hp.
  induction Hp as [u a p Hret HP | u T e k p Hask _ IH].
  - apply (ends_ret Q u a); auto.
  - apply (ends_ask Q u T e k); auto.
Qed.

(** The same program after other calls. *)
Lemma ends_with_after A (P : Log E -> A -> Prop) (u0 u : Log E) (p : itree E A) :
  ends_with P u p ->
  ends_with (fun v a => exists w, v = u0 ++ w /\ P w a) (u0 ++ u) p.
Proof.
  intros Hp. induction Hp as [u a p Hret HP | u T e k p Hask _ IH].
  - apply (ends_ret _ _ a); [exact Hret | exists u; auto].
  - apply (ends_ask _ _ T e k); [exact Hask|].
    intros x. rewrite <- app_assoc. apply IH.
Qed.

Lemma ends_with_ret A (P : Log E -> A -> Prop) u (a : A) :
  P u a -> ends_with P u (Ret a).
Proof. intros HP. apply (ends_ret P u a); [reflexivity | exact HP]. Qed.

Lemma ends_with_trigger_bind A (P : Log E -> A -> Prop) u T (e : E T)
    (k : T -> itree E A) :
  (forall x, ends_with P (u ++ [call_of e]) (k x)) ->
  ends_with P u (ITree.bind (ITree.trigger e) k).
Proof. intros Hk. apply (ends_ask P u T e k); [reflexivity | exact Hk]. Qed.

Lemma ends_with_trigger T (P : Log E -> T -> Prop) u (e : E T) :
  (forall x, P (u ++ [call_of e]) x) -> ends_with P u (ITree.trigger e).
Proof.
  intros HP. apply (ends_ask P u T e (fun x => Ret x)).
  - rewrite bind_ret_r. reflexivity.
  - intros x. apply ends_with_ret, HP.
Qed.

Lemma ends_with_bind A B (Q : Log E -> A -> Prop) (P : Log E -> B -> Prop) u
    (p : itree E A) (k : A -> itree E B) :
  ends_with Q u p ->
  (forall v a, Q v a -> ends_with P v (k a)) ->
  ends_with P u (ITree.bind p k).
Proof.
  intros Hp Hk. induction Hp as [u a p Hret HQ | u T e k0 p Hask _ IH].
  - apply (ends_with_eutt _ _ _ (k a)); [|apply Hk, HQ].
    rewrite Hret, bind_ret_l. reflexivity.
  - apply (ends_ask P u T e (fun x => ITree.bind (k0 x) k)).
    + rewrite Hask, bind_bind. reflexivity.
    + exact IH.
Qed.

(** A run is one path through the program. *)
Lemma ends_with_exec A (P : Log E -> A -> Prop) u (p : itree E A)
    (env : Answers E) (tr : Log E) :
  ends_with P u p ->
  exists v a, exec env p (tr ++ u) ≈ Ret (tr ++ v, a) /\ P v a.
Proof.
  intros Hp. induction Hp as [u a p Hret HP | u T e k p Hask _ IH].
  - exists u, a. split; [|exact HP].
    unfold exec. rewrite Hret, interp_state_ret. reflexivity.
  - destruct (IH (env T e (tr ++ u))) as (v & a & Hrun & HP).
    exists v, a. split; [|exact HP].
    unfold exec in *. rewrite Hask, interp_state_bind, interp_state_trigger.
    unfold answer at 1. rewrite bind_ret_l. cbn [fst snd].
    rewrite <- app_assoc. exact Hrun.
Qed.

End OutcomesFacts.

(** Over [svcE], a run in an [Env] is such a run. *)
Lemma ends_with_run A (P : Trace -> A -> Prop) (p : itree svcE A) (env : Env) :
  ends_with P [] p ->
  exists tr a, run env p [] ≈ Ret (tr, a) /\ P tr a.
Proof.
  intros Hp.
  exact (ends_with_exec A P [] p (fun T e tr => respond env e tr) [] Hp).
Qed.

Lemma ends_with_bindC A B (Q : Trace -> Completion A -> Prop)
    (P : Trace -> Completion B -> Prop) u (p : svc A) (k : A -> svc B) :
  ends_with Q u p ->
  (forall v a, Q v (Normal a) -> ends_with P v (k a)) ->
  (forall v e, Q v (Throw e) -> P v (Throw e)) ->
  ends_with P u (bindC p k).
Proof.
  intros Hp Hk He. unfold bindC. apply (ends_with_bind _ _ Q P u p _ Hp).
  intros v [a|e] HQ; [apply Hk, HQ | apply ends_with_ret, He, HQ].
Qed.

#[global] Instance ends_with_proper E A (P : Log E -> A -> Prop) (u : Log E) :
  Proper (respectful (eutt eq) iff) (ends_with P u).
Proof.
  intros p q Hpq. split; apply ends_with_eutt; [|symmetry]; exact Hpq.
Qed.

(** Symbolic execution of a program along all its paths. *)
Ltac ends_step :=
  first
    [ rewrite bind_bind
    | rewrite bind_ret_l
    | apply ends_with_trigger_bind; intros ?
    | match goal with
      | |- ends_with _ _ (ITree.bind (if ?b then _ else _) _) =>
          destruct b eqn:?
      | |- ends_with _ _ (if ?b then _ else _) => destruct b eqn:?
      | |- ends_with _ _ (ITree.bind
                            (match ?c with Normal _ => _ | Throw _ => _ end)
                            _) =>
          destruct c eqn:?
      | |- ends_with _ _ (match ?c with Normal _ => _ | Throw _ => _ end) =>
          destruct c eqn:?
      end ].

(** ** The analysis functions under every environment *)

Lemma analyzeContent_ends (k : AnalysisKind) (f : File) (prompt : jsstring) :
  ends_with tidy [] (analyzeContent k f prompt).
Proof.
  assert (Hboth : analyzeContent k f prompt = analyzeVideoContent f prompt)
    by (destruct k; reflexivity).
  rewrite Hboth.
  unfold analyzeVideoContent, uploadFile, getAi, bindC, await, throw.
  repeat ends_step; apply ends_with_ret; cbn [app tidy];
    try reflexivity; split; reflexivity.
Qed.

(** Whatever the observer, the network and the provider do, a run of
    either analysis function ends, and the uploaded file is deleted
    exactly when the function returns: then there was one analysis call
    and one delete request; when it throws, at whatever stage, there was
    no delete request. *)
Theorem cleanup_exactly_on_success (k : AnalysisKind) (env : Env) (f : File)
    (prompt : jsstring) :
  exists tr c,
    run env (analyzeContent k f prompt) [] ≈ Ret (tr, c) /\
    match c with
    | Normal _ => List.length (delete_requests tr) = 1%nat /\
                  List.length (analysis_calls tr) = 1%nat
    | Throw _ => delete_requests tr = []
    end.
Proof.
  exact (ends_with_run _ tidy _ env (analyzeContent_ends k f prompt)).
Qed.

(** ** [editImage] under every environment *)

Lemma scan_parts_data_uri (ps : list Part) (url : jsstring) :
  scan_parts ps = Normal url -> exists d, url = data_uri d.
Proof.
  induction ps as [|p ps IH]; cbn [scan_parts]; [discriminate|].
  destruct (inlineData p) as [d|]; [|exact IH].
  intros Heq. injection Heq as <-. exists d. reflexivity.
Qed.

Lemma editImage_ends (imageFile : File) (prompt : jsstring) :
  ends_with edited_or_thrown [] (editImage imageFile prompt).
Proof.
  unfold editImage, getAi, bindC, await.
  repeat ends_step; apply ends_with_ret; (split; [cbn; lia|]);
    try exact I.
  destruct (scan_parts _) as [url|e] eqn:Hscan; [|exact I].
  apply (scan_parts_data_uri _ _ Hscan).
Qed.

(* ===================================================================== *)
(** ** The image editing panel *)
(* ===================================================================== *)

(** Whatever the provider does, a submit of the image editing panel ends.
    Without a file it makes no call and only sets the error, so a result
    shown before stays on screen beside it.  With a file it ends with
    [loading] off and either a data URI as the result and no error, or no
    result and the generic error. *)
Theorem image_edit_submit_ends (t : jsstring -> jsstring) (env : Env)
    (s : ImageEditPanel.State) :
  exists tr s',
    run env (ImageEditPanel.handleSubmit t s) [] ≈ Ret (tr, s') /\
    ImageEditPanel.prompt s' = ImageEditPanel.prompt s /\
    ImageEditPanel.imageFile s' = ImageEditPanel.imageFile s /\
    match ImageEditPanel.imageFile s with
    | None =>
        tr = [] /\
        ImageEditPanel.result s' = ImageEditPanel.result s /\
        ImageEditPanel.loading s' = ImageEditPanel.loading s /\
        ImageEditPanel.error s' = t (js "error.noImage")
    | Some _ =>
        ImageEditPanel.loading s' = false /\
        ((exists d, ImageEditPanel.result s' = data_uri d /\
                    ImageEditPanel.error s' = []) \/
         (ImageEditPanel.result s' = [] /\
          ImageEditPanel.error s' = t (js "error")))
    end.
Proof.
  apply (ends_with_run _ (ImageEditPanel.settled t s)).
  unfold ImageEditPanel.handleSubmit, ImageEditPanel.settled.
  destruct (ImageEditPanel.imageFile s) as [file|].
  - cbv zeta.
    apply (ends_with_bind _ _ _ _ _ _ _
             (editImage_ends file (ImageEditPanel.prompt s))).
    intros v [url|e] [_ Hc]; apply ends_with_ret; cbn; repeat split.
    + left. destruct Hc as (d & ->). exists d. split; reflexivity.
    + right. split; reflexivity.
  - apply ends_with_ret. repeat split.
Qed.

(* ===================================================================== *)
(** ** The video and audio analysis panels *)
(* ===================================================================== *)

Module AnalysisPanelFacts.
Import AnalysisPanel.

Lemma shown_snoc_notification (u : Trace) (state : jsstring) (s : State) :
  shown (u ++ [ev (OnStateChange state)]) s
  = handleStateChange state (shown u s).
Proof. unfold shown. rewrite phases_app, fold_left_app. reflexivity. Qed.

Lemma shown_snoc_other (u : Trace) (c : call) (s : State) :
  is_notification c = false -> shown (u ++ [c]) s = shown u s.
Proof.
  intros Hc. unfold shown. rewrite phases_app.
  destruct c as [T e]. destruct e; try discriminate Hc;
    cbn [phases flat_map phase_of projT2 app]; rewrite app_nil_r;
    reflexivity.
Qed.

Lemma passed_on_snoc (u : Trace) (c : call) :
  passed_on (u ++ [c])
  = passed_on u ++ (if is_notification c then [] else [c]).
Proof.
  unfold passed_on. rewrite filter_app. cbn [filter].
  destruct (is_notification c); reflexivity.
Qed.

(** The service under the panel's observer: it ends as it does alone,
    the notifications have become the panel's state, and the other calls
    are the calls of the whole. *)
Lemma observed_ends A (P : Trace -> A -> Prop) (u : Trace) (p : itree svcE A)
    (s0 : State) :
  ends_with P u p ->
  ends_with (fun v (r : State * A) =>
               exists u', P u' (snd r) /\ v = passed_on u' /\
                          fst r = shown u' s0)
            (passed_on u) (interp_state observe p (shown u s0)).
Proof.
  intros Hp. induction Hp as [u a p Hret HP | u T e k p Hask _ IH].
  - rewrite Hret, interp_state_ret. apply ends_with_ret.
    exists u. auto.
  - rewrite Hask, interp_state_bind, interp_state_trigger.
    destruct e;
      try (cbn [observe]; rewrite bind_bind;
           apply ends_with_trigger_bind; intros x;
           rewrite bind_ret_l; cbn [fst snd];
           specialize (IH x);
           rewrite passed_on_snoc, shown_snoc_other in IH by reflexivity;
           exact IH).
    cbn [observe]. rewrite bind_ret_l. cbn [fst snd].
    specialize (IH (Normal tt)).
    rewrite passed_on_snoc, shown_snoc_notification in IH.
    cbn [is_notification projT2 ev] in IH. rewrite app_nil_r in IH.
    exact IH.
Qed.

Lemma handleStateChange_keeps (state : jsstring) (s : State) :
  prompt (handleStateChange state s) = prompt s /\
  file (handleStateChange state s) = file s /\
  result (handleStateChange state s) = result s /\
  error (handleStateChange state s) = error s.
Proof.
  unfold handleStateChange.
  destruct (_ || _); repeat split; reflexivity.
Qed.

(** Notifications touch [loadingState] only. *)
Lemma shown_keeps (u : Trace) (s : State) :
  prompt (shown u s) = prompt s /\ file (shown u s) = file s /\
  result (shown u s) = result s /\ error (shown u s) = error s.
Proof.
  unfold shown. revert s.
  induction (phases u) as [|state ps IH]; intros s; [repeat split|].
  cbn [fold_left].
  destruct (IH (handleStateChange state s)) as (Hp & Hf & Hr & He).
  destruct (handleStateChange_keeps state s) as (Hp' & Hf' & Hr' & He').
  rewrite Hp, Hf, Hr, He. auto.
Qed.

Lemma delete_requests_passed_on (u : Trace) :
  delete_requests (passed_on u) = delete_requests u.
Proof.
  unfold delete_requests, passed_on.
  induction u as [|c u IH]; [reflexivity|].
  cbn [filter]. destruct c as [T e].
  destruct e; cbn [is_notification negb projT2 filter]; rewrite ?IH;
    reflexivity.
Qed.

End AnalysisPanelFacts.

(** Whatever the network and the provider do, a submit of the video or
    of the audio analysis panel ends.  Without a file it makes no call
    and only sets the error.  With a file, the panel's own observer never
    stops the service, and at the end [loadingState] is ['idle'], so the
    button is enabled and shows the submit label again; either the result
    is shown without an error and the uploaded file was deleted, or the
    generic error is shown without a result and no delete request was
    made. *)
Theorem analysis_submit_ends (t : jsstring -> jsstring) (kind : AnalysisKind)
    (env : Env) (s : AnalysisPanel.State) :
  exists tr s',
    run env (AnalysisPanel.handleSubmit t kind s) [] ≈ Ret (tr, s') /\
    AnalysisPanel.prompt s' = AnalysisPanel.prompt s /\
    AnalysisPanel.file s' = AnalysisPanel.file s /\
    match AnalysisPanel.file s with
    | None =>
        tr = [] /\
        AnalysisPanel.result s' = AnalysisPanel.result s /\
        AnalysisPanel.loadingState s' = AnalysisPanel.loadingState s /\
        AnalysisPanel.error s' = t (AnalysisPanel.no_file_key kind)
    | Some _ =>
        AnalysisPanel.loadingState s' = js "idle" /\
        AnalysisPanel.loading s' = false /\
        AnalysisPanel.getButtonLabel t s' = t (js "submitButton") /\
        ((AnalysisPanel.error s' = [] /\
          List.length (delete_requests tr) = 1%nat) \/
         (AnalysisPanel.result s' = [] /\
          AnalysisPanel.error s' = t (js "error") /\
          delete_requests tr = []))
    end.
Proof.
  apply (ends_with_run _
    (fun tr s' =>
       AnalysisPanel.prompt s' = AnalysisPanel.prompt s /\
       AnalysisPanel.file s' = AnalysisPanel.file s /\
       match AnalysisPanel.file s with
       | None =>
           tr = [] /\
           AnalysisPanel.result s' = AnalysisPanel.result s /\
           AnalysisPanel.loadingState s' = AnalysisPanel.loadingState s /\
           AnalysisPanel.error s' = t (AnalysisPanel.no_file_key kind)
       | Some _ =>
           AnalysisPanel.loadingState s' = js "idle" /\
           AnalysisPanel.loading s' = false /\
           AnalysisPanel.getButtonLabel t s' = t (js "submitButton") /\
           ((AnalysisPanel.error s' = [] /\
             List.length (delete_requests tr) = 1%nat) \/
            (AnalysisPanel.result s' = [] /\
             AnalysisPanel.error s' = t (js "error") /\
             delete_requests tr = []))
       end)).
  unfold AnalysisPanel.handleSubmit.
  destruct (AnalysisPanel.file s) as [f|] eqn:Hfile.
  - cbv zeta.
    set (s0 := AnalysisPanel.mkState (AnalysisPanel.prompt s) (Some f) []
                 (js "uploading") []).
    pose proof (AnalysisPanelFacts.observed_ends _ tidy [] _ s0
                  (analyzeContent_ends kind f (AnalysisPanel.prompt s)))
      as Hobs.
    apply (ends_with_bind _ _ _ _ _ _ _ Hobs).
    intros v [s1 c] (u' & Htidy & -> & Hs1). cbn [fst snd] in *.
    destruct (AnalysisPanelFacts.shown_keeps u' s0) as (Hp & Hf & Hr & He).
    rewrite <- Hs1 in Hp, Hf, Hr, He.
    apply ends_with_ret.
    rewrite AnalysisPanelFacts.delete_requests_passed_on.
    destruct c as [text|e]; cbn [tidy] in Htidy;
      cbn [AnalysisPanel.prompt AnalysisPanel.file AnalysisPanel.result
           AnalysisPanel.loadingState AnalysisPanel.error];
      rewrite ?Hp, ?Hf, ?Hr, ?He; repeat split.
    + left. split; [reflexivity | apply Htidy].
    + right. repeat split. exact Htidy.
  - apply ends_with_ret. repeat split.
Qed.

(* ===================================================================== *)
(** ** The generation functions *)
(* ===================================================================== *)

(** *** Runs of the generation functions *)

Section Exec.

Context {E : Type -> Type}.
Variable env : Answers E.

Lemma exec_ret R (r : R) (tr : Log E) : exec env (Ret r) tr ≈ Ret (tr, r).
Proof. unfold exec. rewrite interp_state_ret. reflexivity. Qed.

Lemma exec_trigger_bind T (e : E T) R (k : T -> itree E R) (tr : Log E) :
  exec env (ITree.bind (ITree.trigger e) k) tr
  ≈ exec env (k (env T e tr)) (tr ++ [call_of e]).
Proof.
  unfold exec. rewrite interp_state_bind, interp_state_trigger.
  unfold answer at 1. rewrite bind_ret_l. reflexivity.
Qed.

Lemma exec_eutt R (p q : itree E R) (tr : Log E) :
  p ≈ q -> exec env p tr ≈ exec env q tr.
Proof. intros Hpq. unfold exec. rewrite Hpq. reflexivity. Qed.

End Exec.

Lemma lift_trigger T (e : svcE T) :
  lift (ITree.trigger e) ≈ ITree.trigger (inl1 e : appE T).
Proof.
  unfold lift, ITree.trigger. rewrite translate_vis.
  apply eqit_Vis. intros x. rewrite translate_ret. reflexivity.
Qed.

(** [getAi] among the events of both layers. *)
Lemma lift_getAi :
  lift getAi
  ≈ ITree.bind (ITree.trigger (inl1 EnvApiKey : appE _))
      (fun apiKey => ITree.trigger (inl1 (NewGoogleGenAI apiKey) : appE _)).
Proof.
  unfold getAi, await. unfold lift at 1. rewrite translate_bind.
  apply eutt_clo_bind with (UU := eq).
  - apply lift_trigger.
  - intros apiKey ? <-. apply lift_trigger.
Qed.

Ltac gen_unfold :=
  unfold bindG, ask; rewrite lift_getAi.

Lemma generateText_ends (prompt : jsstring) :
  ends_with text_or_logged [] (generateText prompt).
Proof.
  unfold generateText. gen_unfold.
  repeat ends_step; apply ends_with_ret; (split; [cbn; lia | reflexivity]).
Qed.

(** Whatever the client constructor and the provider do, [generateText]
    ends after at most one call to the model; when it returns, nothing
    was written to the console; when it throws, the console has one
    entry, labelled ['Error generating text:'], and it holds the very
    error that is thrown. *)
Theorem generate_text_logs_what_it_throws (env : Answers appE)
    (prompt : jsstring) :
  exists tr c,
    exec env (generateText prompt) [] ≈ Ret (tr, c) /\
    (List.length (model_calls tr) <= 1)%nat /\
    match c with
    | Normal _ => logged tr = []
    | Throw e => logged tr = [(js "Error generating text:", e)]
    end.
Proof.
  exact (ends_with_exec _ text_or_logged [] _ env []
           (generateText_ends prompt)).
Qed.

#[global] Instance exec_proper E (env : Answers E) R :
  Proper (respectful (eutt eq) (respectful eq (eutt eq))) (@exec E env R).
Proof. intros p q Hpq tr ? <-. apply exec_eutt, Hpq. Qed.

(** *** [generateImage] *)

Lemma generateImage_ends (prompt : jsstring) (aspectRatio : ImageAspectRatio) :
  ends_with jpeg_or_thrown [] (generateImage prompt aspectRatio).
Proof.
  unfold generateImage. gen_unfold.
  repeat ends_step; apply ends_with_ret; (split; [cbn; lia |]);
    try exact I.
  eexists. reflexivity.
Qed.

(** Whatever the provider answers, [generateImage] ends after at most
    one call to the model, and what it returns is a JPEG data URI: the
    MIME type is the one the request asked for, not one read from the
    answer. *)
Theorem generate_image_is_jpeg_uri (env : Answers appE) (prompt : jsstring)
    (aspectRatio : ImageAspectRatio) :
  exists tr c,
    exec env (generateImage prompt aspectRatio) [] ≈ Ret (tr, c) /\
    (List.length (model_calls tr) <= 1)%nat /\
    match c with
    | Normal url => exists rest, url = js "data:image/jpeg;base64," ++ rest
    | Throw _ => True
    end.
Proof.
  exact (ends_with_exec _ jpeg_or_thrown [] _ env []
           (generateImage_ends prompt aspectRatio)).
Qed.

(** An answer without images (none were generated, or all were filtered
    out) is not told apart from a good one before it is read: the read of
    the first image throws a [TypeError], and that is what the caller
    gets. *)
Theorem generate_image_without_images (env : Answers appE)
    (prompt : jsstring) (aspectRatio : ImageAspectRatio) (ai : GoogleGenAI)
    (r : GenerateImagesResponse) :
  client_built env ai ->
  let rq := GenerateImages ai (images_request prompt aspectRatio) in
  env _ (inr1 rq) (asked env) = Normal r ->
  generatedImages r = Some [] ->
  exec env (generateImage prompt aspectRatio) []
  ≈ Ret (asked env ++ [gen_call rq],
         Throw (TypeError
                  (js "Cannot read properties of undefined (reading 'image')"))).
Proof.
  intros Hai rq Hanswer Hnone. unfold client_built, svc_call in Hai.
  unfold generateImage, bindG, ask. rewrite lift_getAi, bind_bind.
  rewrite exec_trigger_bind. cbv beta. rewrite exec_trigger_bind.
  cbn [app]. rewrite Hai.
  rewrite exec_trigger_bind. fold rq.
  change ([call_of (inl1 EnvApiKey : appE _);
           call_of (inl1 (NewGoogleGenAI (env _ (inl1 EnvApiKey) []))
                    : appE _)])
    with (asked env).
  rewrite Hanswer, bind_ret_l. unfold first_image_bytes. rewrite Hnone.
  apply exec_ret.
Qed.

Lemma generate_image_without_images_witness :
  exists tr,
    exec no_images (generateImage (js "a cat") Image_1_1) []
    ≈ Ret (tr,
           Throw (TypeError
                    (js "Cannot read properties of undefined (reading 'image')"))).
Proof.
  eexists.
  apply (generate_image_without_images no_images (js "a cat") Image_1_1
           client (mkImagesResponse (Some []))); reflexivity.
Defined.

(** *** [textToSpeech] *)

Lemma textToSpeech_ends (text : jsstring) :
  ends_with speech_or_thrown [] (textToSpeech text).
Proof.
  unfold textToSpeech. gen_unfold.
  repeat ends_step;
    try (destruct (base64Audio _) as [audio|];
         [destruct (truthy audio) eqn:Haudio|]);
    apply ends_with_ret; (split; [cbn; lia |]); try exact I.
  exact Haudio.
Qed.

(** Whatever the provider answers, [textToSpeech] ends after at most one
    call to the model, and it never returns the empty string: audio data
    that is missing or empty is turned into an error. *)
Theorem text_to_speech_never_empty (env : Answers appE) (text : jsstring) :
  exists tr c,
    exec env (textToSpeech text) [] ≈ Ret (tr, c) /\
    (List.length (model_calls tr) <= 1)%nat /\
    match c with
    | Normal audio => truthy audio = true
    | Throw _ => True
    end.
Proof.
  exact (ends_with_exec _ speech_or_thrown [] _ env []
           (textToSpeech_ends text)).
Qed.

(** Only the first part of the first candidate is looked at: when it
    carries no inline data, [textToSpeech] throws its own error, whatever
    audio the other parts and the other candidates hold.  ([editImage]
    scans all the parts of the first candidate.) *)
Theorem text_to_speech_reads_first_part_only (env : Answers appE)
    (text : jsstring) (ai : GoogleGenAI) (r : GenerateContentResponse)
    (c : Candidate) (cs : list Candidate) (ct : Content) (p : Part)
    (ps : list Part) :
  client_built env ai ->
  let rq := GenerateContentWith ai (speech_request text) in
  env _ (inr1 rq) (asked env) = Normal r ->
  candidates r = Some (c :: cs) -> content c = Some ct ->
  parts ct = Some (p :: ps) -> inlineData p = None ->
  exec env (textToSpeech text) []
  ≈ Ret (asked env ++ [gen_call rq],
         Throw (Error (js "Text-to-speech conversion failed."))).
Proof.
  intros Hai rq Hanswer Hcs Hct Hps Hp. unfold client_built, svc_call in Hai.
  unfold textToSpeech, bindG, ask. rewrite lift_getAi, bind_bind.
  rewrite exec_trigger_bind. cbv beta. rewrite exec_trigger_bind.
  cbn [app]. rewrite Hai.
  rewrite exec_trigger_bind. fold rq.
  change ([call_of (inl1 EnvApiKey : appE _);
           call_of (inl1 (NewGoogleGenAI (env _ (inl1 EnvApiKey) []))
                    : appE _)])
    with (asked env).
  rewrite Hanswer. unfold base64Audio. rewrite Hcs, Hct, Hps, Hp.
  apply exec_ret.
Qed.

Lemma text_to_speech_reads_first_part_only_witness :
  exists tr,
    exec (answering all_well (Normal audio_second)
                    (Normal (mkImagesResponse None)))
         (textToSpeech (js "Hello")) []
    ≈ Ret (tr, Throw (Error (js "Text-to-speech conversion failed."))).
Proof.
  eexists.
  apply (text_to_speech_reads_first_part_only
           (answering all_well (Normal audio_second)
                      (Normal (mkImagesResponse None)))
           (js "Hello") client audio_second
           (mkCandidate
              (Some (mkContent
                       (Some [TextPart (js "Here is the audio.");
                              InlinePart (mkInline (js "UklGRg==")
                                                   (js "audio/L16"))]))))
           []
           (mkContent
              (Some [TextPart (js "Here is the audio.");
                     InlinePart (mkInline (js "UklGRg==")
                                          (js "audio/L16"))]))
           (TextPart (js "Here is the audio."))
           [InlinePart (mkInline (js "UklGRg==") (js "audio/L16"))]);
    reflexivity.
Defined.

(** *** [generateWithThinking] *)

Lemma generateWithThinking_ends (prompt : jsstring) :
  ends_with text_unlogged [] (generateWithThinking prompt).
Proof.
  unfold generateWithThinking. gen_unfold.
  repeat ends_step; apply ends_with_ret; (split; [cbn; lia | reflexivity]).
Qed.

(* ===================================================================== *)
(** ** The text, thinking and image generation panels *)
(* ===================================================================== *)

(** Whatever the provider does, a submit of the text panel or of the
    thinking panel ends with [loading] off and the prompt as it was,
    after at most one call to the model.  Either a result is shown
    without an error and nothing was written to the console, or the
    generic error is shown without a result; the failure is then on the
    console once for the text panel, and not at all for the thinking
    panel. *)
Theorem prompt_panel_submit_ends (t : jsstring -> jsstring)
    (kind : PromptPanel.Kind) (env : Answers appE) (s : PromptPanel.State) :
  exists tr s',
    exec env (PromptPanel.handleSubmit t kind s) [] ≈ Ret (tr, s') /\
    (List.length (model_calls tr) <= 1)%nat /\
    PromptPanel.loading s' = false /\
    PromptPanel.prompt s' = PromptPanel.prompt s /\
    ((PromptPanel.error s' = [] /\ logged tr = []) \/
     (PromptPanel.result s' = [] /\ PromptPanel.error s' = t (js "error") /\
      List.length (logged tr)
      = match kind with
        | PromptPanel.Text => 1%nat
        | PromptPanel.Thinking => 0%nat
        end)).
Proof.
  apply (ends_with_exec _
    (fun tr s' =>
       (List.length (model_calls tr) <= 1)%nat /\
       PromptPanel.loading s' = false /\
       PromptPanel.prompt s' = PromptPanel.prompt s /\
       ((PromptPanel.error s' = [] /\ logged tr = []) \/
        (PromptPanel.result s' = [] /\
         PromptPanel.error s' = t (js "error") /\
         List.length (logged tr)
         = match kind with
           | PromptPanel.Text => 1%nat
           | PromptPanel.Thinking => 0%nat
           end))) [] _ env []).
  unfold PromptPanel.handleSubmit. cbv zeta. destruct kind.
  - apply (ends_with_bind _ _ _ _ _ _ _
             (generateText_ends (PromptPanel.prompt s))).
    intros v [text|e] [Hcalls Hlog]; apply ends_with_ret;
      (split; [exact Hcalls|]); repeat split.
    + left. split; [reflexivity | exact Hlog].
    + right. rewrite Hlog. repeat split.
  - apply (ends_with_bind _ _ _ _ _ _ _
             (generateWithThinking_ends (PromptPanel.prompt s))).
    intros v [text|e] [Hcalls Hlog]; apply ends_with_ret;
      (split; [exact Hcalls|]); repeat split.
    + left. split; [reflexivity | exact Hlog].
    + right. rewrite Hlog. repeat split.
Qed.

(** Whatever the provider does, a submit of the image generation panel
    ends with [loading] off, the prompt and the aspect ratio as they
    were, and either a JPEG data URI as the result and no error, or no
    result and the generic error. *)
Theorem image_gen_submit_ends (t : jsstring -> jsstring)
    (env : Answers appE) (s : ImageGenPanel.State) :
  exists tr s',
    exec env (ImageGenPanel.handleSubmit t s) [] ≈ Ret (tr, s') /\
    ImageGenPanel.loading s' = false /\
    ImageGenPanel.prompt s' = ImageGenPanel.prompt s /\
    ImageGenPanel.aspectRatio s' = ImageGenPanel.aspectRatio s /\
    ((exists rest,
         ImageGenPanel.result s' = js "data:image/jpeg;base64," ++ rest /\
         ImageGenPanel.error s' = []) \/
     (ImageGenPanel.result s' = [] /\
      ImageGenPanel.error s' = t (js "error"))).
Proof.
  apply (ends_with_exec _
    (fun (tr : Log appE) s' =>
       ImageGenPanel.loading s' = false /\
       ImageGenPanel.prompt s' = ImageGenPanel.prompt s /\
       ImageGenPanel.aspectRatio s' = ImageGenPanel.aspectRatio s /\
       ((exists rest,
            ImageGenPanel.result s' = js "data:image/jpeg;base64," ++ rest /\
            ImageGenPanel.error s' = []) \/
        (ImageGenPanel.result s' = [] /\
         ImageGenPanel.error s' = t (js "error")))) [] _ env []).
  unfold ImageGenPanel.handleSubmit. cbv zeta.
  apply (ends_with_bind _ _ _ _ _ _ _
           (generateImage_ends (ImageGenPanel.prompt s)
                               (ImageGenPanel.aspectRatio s))).
  intros v [url|e] [_ Hc]; apply ends_with_ret; repeat split.
  - left. destruct Hc as (rest & ->). exists rest. split; reflexivity.
  - right. split; reflexivity.
Qed.

(* ===================================================================== *)
(** ** The text-to-speech panel *)
(* ===================================================================== *)

Module TextToSpeechFacts.
Import TextToSpeechPanel.

Lemma audio_calls_app (u v : Log appE) :
  audio_calls (u ++ v) = audio_calls u ++ audio_calls v.
Proof. apply filter_app. Qed.

Lemma contexts_made_app (u v : Log appE) :
  contexts_made (u ++ v) = (contexts_made u + contexts_made v)%nat.
Proof. unfold contexts_made. rewrite filter_app, length_app. reflexivity. Qed.

Lemma playAudio_ends (t : jsstring -> jsstring) (base64Audio : jsstring)
    (s : State) (u0 : Log appE) :
  truthy base64Audio = true ->
  ends_with (played t u0 s) u0 (playAudio t base64Audio s).
Proof.
  intros Haudio. unfold playAudio. rewrite Haudio. cbn [negb].
  unfold ensure_context, new_context, play, bindG, ask.
  destruct (audioContextRef s) as [ctx|];
    repeat (ends_step; cbn [fst snd]);
    apply ends_with_ret; unfold played; rewrite <- ?app_assoc; cbn [app];
    eexists; (split; [reflexivity|]);
    (split; [discriminate|]); (split; [reflexivity|]);
    (split; [cbn; lia|]); cbn [text audioData loading error];
    auto.
Qed.

Lemma textToSpeech_quiet (text : jsstring) :
  ends_with (fun u c =>
               audio_calls u = [] /\
               (List.length (model_calls u) <= 1)%nat /\
               match c with
               | Normal audio => truthy audio = true
               | Throw _ => True
               end) [] (textToSpeech text).
Proof.
  unfold textToSpeech. gen_unfold.
  repeat ends_step;
    try (destruct (base64Audio _) as [audio|];
         [destruct (truthy audio) eqn:Haudio|]);
    apply ends_with_ret; (split; [reflexivity|]);
    (split; [cbn; lia |]); try exact I.
  exact Haudio.
Qed.

End TextToSpeechFacts.

(** Whatever the provider and the browser do, a submit of the speech
    panel ends with [loading] off and the text as it was.  When
    [textToSpeech] throws, no audio data is kept, the generic error is
    shown and the browser's audio was not touched.  When it returns, the
    data is kept and it is not empty, so [playAudio] never leaves at its
    guard: playback is attempted, with at most one new audio context, and
    a failure of it shows the playback error, never the generic one, since
    [playAudio] catches all that its [try] throws. *)
Theorem speech_submit_ends (t : jsstring -> jsstring) (env : Answers appE)
    (s : TextToSpeechPanel.State) :
  exists tr s',
    exec env (TextToSpeechPanel.handleSubmit t s) [] ≈ Ret (tr, s') /\
    TextToSpeechPanel.loading s' = false /\
    TextToSpeechPanel.text s' = TextToSpeechPanel.text s /\
    ((TextToSpeechPanel.audioData s' = [] /\
      TextToSpeechPanel.error s' = t (js "error") /\
      TextToSpeechPanel.audio_calls tr = []) \/
     (truthy (TextToSpeechPanel.audioData s') = true /\
      TextToSpeechPanel.audio_calls tr <> [] /\
      (TextToSpeechPanel.contexts_made tr <= 1)%nat /\
      (TextToSpeechPanel.error s' = [] \/
       TextToSpeechPanel.error s' = t (js "error.audioPlayback")))).
Proof.
  apply (ends_with_exec _
    (fun tr s' =>
       TextToSpeechPanel.loading s' = false /\
       TextToSpeechPanel.text s' = TextToSpeechPanel.text s /\
       ((TextToSpeechPanel.audioData s' = [] /\
         TextToSpeechPanel.error s' = t (js "error") /\
         TextToSpeechPanel.audio_calls tr = []) \/
        (truthy (TextToSpeechPanel.audioData s') = true /\
         TextToSpeechPanel.audio_calls tr <> [] /\
         (TextToSpeechPanel.contexts_made tr <= 1)%nat /\
         (TextToSpeechPanel.error s' = [] \/
          TextToSpeechPanel.error s' = t (js "error.audioPlayback")))))
    [] _ env []).
  unfold TextToSpeechPanel.handleSubmit. cbv zeta.
  apply (ends_with_bind _ _ _ _ _ _ _
           (TextToSpeechFacts.textToSpeech_quiet (TextToSpeechPanel.text s))).
  intros v [audio|e] (Hquiet & _ & Haudio).
  - apply (ends_with_bind _ _ _ _ _ _ _
             (TextToSpeechFacts.playAudio_ends t audio _ v Haudio)).
    intros v' s1 (w & -> & Hw & Hall & Hmade & Htext & Hdata & _ & Herr).
    apply ends_with_ret. cbn [TextToSpeechPanel.loading TextToSpeechPanel.text
                              TextToSpeechPanel.audioData
                              TextToSpeechPanel.error] in *.
    split; [reflexivity|]. split; [exact Htext|]. right.
    rewrite Hdata, TextToSpeechFacts.audio_calls_app, Hquiet, Hall.
    split; [exact Haudio|]. split; [exact Hw|]. split; [|exact Herr].
    rewrite TextToSpeechFacts.contexts_made_app.
    assert (Hnone : TextToSpeechPanel.contexts_made v = 0%nat).
    { unfold TextToSpeechPanel.contexts_made.
      assert (Hsub : forall c, TextToSpeechPanel.is_new_context c = true ->
                               TextToSpeechPanel.is_audio_call c = true).
      { intros [T [e'|e']]; [discriminate|]. destruct e'; auto. }
      clear - Hquiet Hsub. unfold TextToSpeechPanel.audio_calls in Hquiet.
      induction v as [|c v IH]; [reflexivity|].
      cbn [filter] in *.
      destruct (TextToSpeechPanel.is_audio_call c) eqn:Hc;
        [discriminate Hquiet|].
      destruct (TextToSpeechPanel.is_new_context c) eqn:Hn;
        [rewrite (Hsub c Hn) in Hc; discriminate Hc | exact (IH Hquiet)]. }
    rewrite Hnone. exact Hmade.
  - rewrite bind_ret_l. apply ends_with_ret.
    split; [reflexivity|]. split; [reflexivity|]. left.
    repeat split. exact Hquiet.
Qed.

(* ===================================================================== *)
(** ** [AppContent]: the screens *)
(* ===================================================================== *)

Lemma jsstring_eqb_eq (a b : jsstring) : jsstring_eqb a b = true -> a = b.
Proof.
  unfold jsstring_eqb. destruct (list_eq_dec N.eq_dec a b); [auto|discriminate].
Qed.

Module AppContentFacts.
Import AppContent.

(** On a service's id, the service screen is rendered with that service:
    no id of [servicesList] is ['home'] or ['settings'], and no two are the
    same. *)
Lemma service_screen (s : State) (sv : Service) :
  In sv servicesList -> currentScreen s = id sv ->
  isAuthenticated s = true ->
  render s = ServiceScreen (Some sv).
Proof.
  intros Hin Hcur Hauth. unfold render, activeService.
  rewrite Hauth, Hcur. cbn [negb]. cbn [servicesList In] in Hin.
  repeat (destruct Hin as [<-|Hin]; [vm_compute; reflexivity|]).
  destruct Hin.
Qed.

Lemma dispatch_coherent (s : State) (e : Event) :
  coherent s -> coherent (dispatch s e).
Proof.
  intros (Huser & Hnone & Hscreen). unfold dispatch, render.
  destruct (isAuthenticated s) eqn:Hauth; cbn [negb].
  - destruct (Huser eq_refl) as (provider & Hprovider).
    assert (Hs : coherent s).
    { split; [intros _; exists provider; exact Hprovider|].
      split; [rewrite Hauth; discriminate | exact Hscreen]. }
    assert (Hto : forall screen,
               (screen = js "home" \/ screen = js "settings" \/
                exists sv, In sv servicesList /\ screen = id sv) ->
               coherent (setCurrentScreen screen s)).
    { intros screen Hok. unfold coherent, setCurrentScreen.
      cbn [isAuthenticated user currentScreen]. rewrite Hauth.
      split; [intros _; exists provider; exact Hprovider|].
      split; [discriminate | exact Hok]. }
    destruct (jsstring_eqb (currentScreen s) (js "home")).
    + destruct e; try exact Hs.
      * apply Hto. auto.
      * destruct (existsb _ servicesList) eqn:Hex; [|exact Hs].
        apply existsb_exists in Hex. destruct Hex as (sv' & Hin & Heq).
        apply Hto. right. right. exists sv'. split; [exact Hin|].
        symmetry. apply jsstring_eqb_eq, Heq.
    + destruct (jsstring_eqb (currentScreen s) (js "settings")).
      * destruct e; try exact Hs.
        -- apply Hto. auto.
        -- unfold coherent, handleLogout.
           cbn [isAuthenticated user currentScreen].
           split; [discriminate|]. split; auto.
      * destruct e; try exact Hs. apply Hto. auto.
  - destruct (Hnone eq_refl) as (Hu & Hhome).
    assert (Hs : coherent s).
    { split; [rewrite Hauth; discriminate|].
      split; [intros _; auto | exact Hscreen]. }
    destruct e; try exact Hs.
    unfold coherent, handleLogin. cbn [isAuthenticated user currentScreen].
    split; [intros _; exists provider; reflexivity|].
    split; [discriminate | auto].
Qed.

Lemma play_coherent (es : list Event) (s : State) :
  coherent s -> coherent (play s es).
Proof.
  revert s. induction es as [|e es IH]; intros s Hs; [exact Hs|].
  cbn [play fold_left]. apply IH, dispatch_coherent, Hs.
Qed.

End AppContentFacts.

(** Whatever is clicked, every screen [AppContent] renders has what it
    reads.  The settings screen, which is handed [user!], always gets a
    user, and it is the mock user of one of the two providers.  A service
    screen always finds its service in [servicesList], so it never shows
    an empty page.  And when the login screen is up, no user is held and
    the screen cell is back at ['home'], so the next login starts at
    home. *)
Theorem screens_have_what_they_read (es : list AppContent.Event) :
  let s := AppContent.play AppContent.initial es in
  match AppContent.render s with
  | AppContent.LoginScreen =>
      AppContent.user s = None /\ AppContent.currentScreen s = js "home"
  | AppContent.HomeScreen => True
  | AppContent.SettingsPanel u =>
      exists provider, u = Some (AppContent.user_of provider)
  | AppContent.ServiceScreen active =>
      exists sv, active = Some sv /\ In sv AppContent.servicesList /\
                 AppContent.id sv = AppContent.currentScreen s
  end.
Proof.
  intros s.
  assert (Hs : AppContent.coherent s).
  { apply AppContentFacts.play_coherent. split; [discriminate|].
    split; [intros _; split; reflexivity | left; reflexivity]. }
  destruct Hs as (Huser & Hnone & Hscreen).
  destruct (AppContent.isAuthenticated s) eqn:Hauth.
  - destruct Hscreen as [Hhome | [Hsettings | (sv & Hin & Hid)]].
    + unfold AppContent.render. rewrite Hauth, Hhome. exact I.
    + unfold AppContent.render. rewrite Hauth, Hsettings.
      cbn [negb]. apply (Huser eq_refl).
    + rewrite (AppContentFacts.service_screen s sv Hin Hid Hauth).
      exists sv. auto.
  - unfold AppContent.render. rewrite Hauth. cbn [negb].
    apply (Hnone eq_refl).
Qed.

(* ===================================================================== *)
(** ** The key gate of the video generation panel *)
(* ===================================================================== *)

(** The form of the video panel is reached only through
    [window.aistudio].  Where it is not defined, the panel shows the key
    screen after mount and every click on its button does nothing, so the
    form never appears.  Where it is defined and the key check is
    rejected, the spinner stays for good.  And where the key dialog
    returns, the form appears whether or not a key was chosen. *)
Theorem video_form_needs_aistudio (checked : Completion bool)
    (clicks : list (Completion unit)) (e : Thrown) (chosen : bool) :
  VideoGenKey.render (VideoGenKey.play false checked clicks)
  = VideoGenKey.KeyNeeded /\
  VideoGenKey.render (VideoGenKey.play true (Throw e) clicks)
  = VideoGenKey.Spinner /\
  VideoGenKey.render
    (VideoGenKey.play true (Normal chosen) (clicks ++ [Normal tt]))
  = VideoGenKey.Form.
Proof.
  split; [|split].
  - unfold VideoGenKey.play.
    assert (Hstay : forall g,
               VideoGenKey.render g = VideoGenKey.KeyNeeded ->
               VideoGenKey.render (fold_left (VideoGenKey.click false) clicks g)
               = VideoGenKey.KeyNeeded).
    { induction clicks as [|c clicks IH]; intros g Hg; [exact Hg|].
      cbn [fold_left]. apply IH. unfold VideoGenKey.click. rewrite Hg.
      exact Hg. }
    apply Hstay. reflexivity.
  - unfold VideoGenKey.play.
    assert (Hstay : forall g,
               VideoGenKey.render g = VideoGenKey.Spinner ->
               VideoGenKey.render (fold_left (VideoGenKey.click true) clicks g)
               = VideoGenKey.Spinner).
    { induction clicks as [|c clicks IH]; intros g Hg; [exact Hg|].
      cbn [fold_left]. apply IH. unfold VideoGenKey.click. rewrite Hg.
      exact Hg. }
    apply Hstay. reflexivity.
  - unfold VideoGenKey.play. rewrite fold_left_app. cbn [fold_left].
    assert (Hready : forall g,
               VideoGenKey.checkingApiKey g = false ->
               VideoGenKey.checkingApiKey
                 (fold_left (VideoGenKey.click true) clicks g) = false).
    { induction clicks as [|c clicks IH]; intros g Hg; [exact Hg|].
      cbn [fold_left]. apply IH. unfold VideoGenKey.click, VideoGenKey.render.
      rewrite Hg. destruct (VideoGenKey.apiKeySelected g); [exact Hg|].
      cbn [negb]. unfold VideoGenKey.handleSelectKey.
      destruct c; exact Hg. }
    specialize (Hready (VideoGenKey.checkKey true (Normal chosen)
                                             VideoGenKey.initial)).
    set (g := fold_left _ clicks _) in *.
    assert (Hg : VideoGenKey.checkingApiKey g = false)
      by (apply Hready; destruct chosen; reflexivity).
    unfold VideoGenKey.click, VideoGenKey.render. rewrite Hg.
    destruct (VideoGenKey.apiKeySelected g) eqn:Hsel; cbn [negb].
    + rewrite Hg, Hsel. reflexivity.
    + unfold VideoGenKey.handleSelectKey.
      cbn [VideoGenKey.checkingApiKey VideoGenKey.apiKeySelected].
      rewrite Hg. reflexivity.
Qed.
